(** * TinyLink link registry: a shallow embedding of [tinylinkBackend/index.js]

    The backend is an Express application whose handlers talk to one
    PostgreSQL table, [links].  Each handler is embedded as a function in a
    small state monad over the table's rows and the number of
    [Math.random()] calls made so far.  JavaScript built-ins used by the
    handlers ([RegExp.prototype.test], [parseInt], [Math.min], [||],
    truthiness) are modelled in the module [JS].  The module [AdminPage]
    embeds what the React page does before it calls the create and the
    list route. *)

From Stdlib Require Import String Ascii List ZArith QArith Qround Lia Bool Arith.
From Equations Require Import Equations.
From Equations.Prop Require Import Logic.
From Stdlib Require Import Sorted Permutation DecimalString DecimalPos.
Import ListNotations.

Local Open Scope string_scope.
Local Open Scope Z_scope.

(* ------------------------------------------------------------------------- *)
(** ** JavaScript built-ins *)
(* ------------------------------------------------------------------------- *)

Module JS.

(** A JavaScript string is a [string]; every [ascii] stands for the code
    unit with the same number (0 to 255).  Code units above 255 are outside
    the model; none of them is a digit, a sign or a letter of the patterns
    used below. *)

(** A field of a request that holds a string or is missing: [None] stands
    for [undefined] (and for [null], which is falsy too).  A field of
    another type reaches [parseInt] and [RegExp.prototype.test] through
    [ToString], that is, as some string. *)
Definition value := option string.

(** [ToBoolean]: [undefined] and the empty string are falsy. *)
Definition truthy (v : value) : bool :=
  match v with
  | None => false
  | Some EmptyString => false
  | Some (String _ _) => true
  end.

(** [ToString]. *)
Definition ToString (v : value) : string :=
  match v with
  | None => "undefined"
  | Some s => s
  end.

(** The Numbers that [parseInt] can return: [NaN] or an integer.  An
    integer beyond 2^53 stands for the double it rounds to; rounding keeps
    the sign, zero and the order with respect to 100. *)
Inductive number : Type :=
| NaN
| Num (z : Z).

(** [ToBoolean] on Numbers: [NaN] and zero are falsy. *)
Definition truthy_number (n : number) : bool :=
  match n with
  | NaN => false
  | Num z => negb (z =? 0)
  end.

(** [a || b]. *)
Definition or_else (a b : number) : number :=
  if truthy_number a then a else b.

(** [Math.min(a, b)]. *)
Definition Math_min (a b : number) : number :=
  match a, b with
  | Num x, Num y => Num (Z.min x y)
  | _, _ => NaN
  end.

(** *** [parseInt(string, 10)] *)

(** [StrWhiteSpaceChar], restricted to the code units of the model: TAB,
    LF, VT, FF, CR, SP and NBSP. *)
Definition is_white_space (c : ascii) : bool :=
  let n := nat_of_ascii c in
  ((9 <=? n) && (n <=? 13) || (n =? 32) || (n =? 160))%nat.

Fixpoint trim_start (s : string) : string :=
  match s with
  | String c s' => if is_white_space c then trim_start s' else s
  | EmptyString => EmptyString
  end.

(** The value of a decimal digit, when [c] is one. *)
Definition digit_value (c : ascii) : option Z :=
  let n := nat_of_ascii c in
  if ((48 <=? n) && (n <=? 57))%nat then Some (Z.of_nat n - 48) else None.

(** Reads the longest prefix of decimal digits of [s]; [acc] is the value
    of the digits read so far, [None] when none has been read. *)
Fixpoint read_digits (acc : option Z) (s : string) : option Z :=
  match s with
  | String c s' =>
      match digit_value c with
      | Some d =>
          read_digits (Some (10 * match acc with Some a => a | None => 0 end + d)) s'
      | None => acc
      end
  | EmptyString => acc
  end.

(** Steps of the specification of [parseInt] for radix 10: strip leading
    white space; the sign is -1 when the first character is a minus sign;
    a leading plus or minus sign is removed; the digits are read, and no
    digit gives [NaN].  (The sign of a negative zero is not kept: it is
    only ever tested for truthiness.) *)
Definition parseInt (v : value) : number :=
  let s := trim_start (ToString v) in
  let sign :=
    match s with
    | String c _ => if (c =? "-")%char then -1 else 1
    | EmptyString => 1
    end in
  let rest :=
    match s with
    | String c r => if (c =? "+")%char || (c =? "-")%char then r else s
    | EmptyString => s
    end in
  match read_digits None rest with
  | Some m => Num (sign * m)
  | None => NaN
  end.

(** *** Regular expressions of the shape [/^[...]{m,n}...$/] *)

(** A character class is a list of inclusive ranges. *)
Definition char_class := list (ascii * ascii).

Definition in_class (cs : char_class) (c : ascii) : bool :=
  existsb (fun r => (nat_of_ascii (fst r) <=? nat_of_ascii c)%nat
                    && (nat_of_ascii c <=? nat_of_ascii (snd r))%nat) cs.

(** One quantified class, [[...]{rmin,rmax}]. *)
Record atom : Type := mkAtom {
  cls : char_class;
  rmin : nat;
  rmax : nat
}.

(** A pattern is a sequence of atoms between [^] and [$]. *)
Definition regexp := list atom.

(** Matches exactly [n] characters of the class, then continues with [k]. *)
Fixpoint match_exact (cs : char_class) (n : nat) (s : string)
  (k : string -> bool) : bool :=
  match n with
  | O => k s
  | S n' =>
      match s with
      | String c s' => in_class cs c && match_exact cs n' s' k
      | EmptyString => false
      end
  end.

(** Greedily matches up to [n] more characters of the class, backtracking
    to fewer when the continuation [k] fails. *)
Fixpoint match_upto (cs : char_class) (n : nat) (s : string)
  (k : string -> bool) : bool :=
  match n, s with
  | S n', String c s' => (in_class cs c && match_upto cs n' s' k) || k s
  | _, _ => k s
  end.

(** The continuation of the last atom is [$]: end of input (no [m] flag). *)
Fixpoint match_atoms (re : regexp) (s : string) : bool :=
  match re with
  | [] => match s with EmptyString => true | _ => false end
  | a :: re' =>
      match_exact (cls a) (rmin a) s
        (fun s1 => match_upto (cls a) (rmax a - rmin a) s1 (match_atoms re'))
  end.

(** [re.test(v)] for a pattern anchored by [^]: the argument goes through
    [ToString] and the match is tried at index 0 only. *)
Definition RegExp_test (re : regexp) (v : value) : bool :=
  match_atoms re (ToString v).

End JS.
Import JS.

(* ------------------------------------------------------------------------- *)
(** ** Data model *)
(* ------------------------------------------------------------------------- *)

Definition timestamp := Z.

(** One row of the table [links]. *)
Record Link : Type := mkLink {
  code : string;
  target : string;
  clicks : Z;
  created_at : timestamp;
  last_clicked : option timestamp
}.

(** What the handlers read and write: the rows of [links], in insertion
    order, and the number of [Math.random()] calls made so far. *)
Record world : Type := mkWorld {
  links : list Link;
  random_calls : nat
}.

(** What the process is started with.  None of it is part of the
    repository's code: [isWebUri] is the [valid-url] package,
    [resolvedBaseUrl] comes from the environment, [random] is the sequence
    of values [Math.random()] returns, and [code_unique] says whether the
    table declares [code] unique. *)
Record Env : Type := mkEnv {
  isWebUri : string -> bool;
  resolvedBaseUrl : string;
  random : nat -> Q;
  code_unique : bool
}.

(** [Math.random()] returns a Number in the interval [0, 1).  Statements
    that need it hold for every such sequence, hence for every run. *)
Definition random_in_unit (env : Env) : Prop :=
  forall k : nat, (0 <= random env k)%Q /\ (random env k < 1)%Q.

(** The JSON object a handler builds from a row: the five columns of the
    row, copied one by one, and [shortUrl]. *)
Record LinkObject : Type := mkLinkObject {
  row : Link;
  shortUrl : string
}.

(** The body of an HTTP response. *)
Inductive Body : Type :=
| JsonError (error : string)
| JsonLink (o : LinkObject)
| JsonClick (message target : string)
| JsonList (count : nat) (rows : list LinkObject)
| JsonDeleted (deleted : string)
| Text (text : string)
| Location (url : string).

Record Response : Type := mkResponse {
  status : nat;
  body : Body
}.

(** The error kinds of the registry, as the responses that carry them. *)
Definition TargetRequired : Response :=
  mkResponse 400 (JsonError "target is required").
Definition InvalidTargetURL : Response :=
  mkResponse 400 (JsonError "invalid target URL").
Definition InvalidCode : Response :=
  mkResponse 400 (JsonError "code must match [A-Za-z0-9]{6,8}").
Definition CodeConflict : Response :=
  mkResponse 409 (JsonError "code already exists").
Definition CodeGenerationExhausted : Response :=
  mkResponse 500 (JsonError "failed to generate unique code, try again").
Definition ServerError : Response :=
  mkResponse 500 (JsonError "server error").
Definition NotFound : Response :=
  mkResponse 404 (JsonError "not found").
Definition NotFoundText : Response :=
  mkResponse 404 (Text "Not found").

(** [InvalidTarget] covers a missing target and a target that is no web URI. *)
Definition InvalidTarget (r : Response) : Prop :=
  r = TargetRequired \/ r = InvalidTargetURL.

(* ------------------------------------------------------------------------- *)
(** ** The state monad of a handler *)
(* ------------------------------------------------------------------------- *)

Definition M (A : Type) : Type := world -> A * world.

Definition ret {A : Type} (a : A) : M A := fun w => (a, w).

Definition bind {A B : Type} (m : M A) (f : A -> M B) : M B :=
  fun w => let (a, w') := m w in f a w'.

Declare Scope handler_scope.
Delimit Scope handler_scope with handler.
Notation "x <- m ;; k" := (bind m (fun x => k))
  (at level 100, m at next level, right associativity) : handler_scope.

(* ------------------------------------------------------------------------- *)
(** ** The store: the statements sent with [client.query] *)
(* ------------------------------------------------------------------------- *)

(** The result of a statement; [rowCount] is the number of rows it returned
    or changed. *)
Record QueryResult (A : Type) : Type := mkResult { rows : list A }.
Arguments mkResult {A} _.
Arguments rows {A} _.

Definition rowCount {A : Type} (q : QueryResult A) : nat := length (rows q).

(** [WHERE code = $1]. *)
Definition has_code (c : string) (l : Link) : bool := String.eqb (code l) c.

(** [SELECT 1 FROM links WHERE code=$1]. *)
Definition select_one (c : string) : M (QueryResult unit) :=
  fun w => (mkResult (map (fun _ => tt) (filter (has_code c) (links w))), w).

(** Modelled from the spec: the column defaults of the table [links], whose
    schema is not part of the sources.  A row inserted with only [code] and
    [target] gets [clicks = 0], [created_at = now] and [last_clicked = null]. *)
Definition new_link (c t : string) (now : timestamp) : Link :=
  mkLink c t 0 now None.

(** [INSERT INTO links(code, target) VALUES ($1, $2) RETURNING ...].  When
    the table declares [code] unique and a row with the code exists, the
    statement fails ([None]) and changes nothing. *)
Definition insert_link (env : Env) (c t : string) (now : timestamp)
  : M (option (QueryResult Link)) :=
  fun w =>
    if code_unique env && existsb (has_code c) (links w) then (None, w)
    else
      let row := new_link c t now in
      (Some (mkResult [row]), mkWorld (links w ++ [row]) (random_calls w)).

(** [SET clicks = clicks + 1, last_clicked = NOW()] on one row. *)
Definition click (now : timestamp) (l : Link) : Link :=
  mkLink (code l) (target l) (clicks l + 1) (created_at l) (Some now).

(** [UPDATE links SET ... WHERE code = $1 RETURNING target]. *)
Definition update_click (c : string) (now : timestamp) : M (QueryResult string) :=
  fun w =>
    (mkResult (map target (filter (has_code c) (links w))),
     mkWorld (map (fun l => if has_code c l then click now l else l) (links w))
             (random_calls w)).

(** [SELECT code, target, clicks, created_at, last_clicked FROM links
    WHERE code = $1]. *)
Definition select_link (c : string) : M (QueryResult Link) :=
  fun w => (mkResult (filter (has_code c) (links w)), w).

(** [DELETE FROM links WHERE code=$1 RETURNING code]. *)
Definition delete_link (c : string) : M (QueryResult string) :=
  fun w =>
    (mkResult (map code (filter (has_code c) (links w))),
     mkWorld (filter (fun l => negb (has_code c l)) (links w)) (random_calls w)).

(** [ORDER BY created_at DESC], as a stable insertion sort.  (The order of
    rows created at the same time is left to the store.) *)
Fixpoint insert_desc (l : Link) (ls : list Link) : list Link :=
  match ls with
  | [] => [l]
  | x :: ls' =>
      if created_at x <? created_at l then l :: ls
      else x :: insert_desc l ls'
  end.

Definition order_by_created_at_desc (ls : list Link) : list Link :=
  fold_right insert_desc [] ls.

(** [SELECT ... FROM links ORDER BY created_at DESC LIMIT $1 OFFSET $2].
    PostgreSQL refuses a negative [LIMIT] or [OFFSET]; [NaN] is no integer. *)
Definition select_page (limit offset : number) : M (option (QueryResult Link)) :=
  fun w =>
    match limit, offset with
    | Num n, Num k =>
        if (n <? 0) || (k <? 0) then (None, w)
        else
          (Some (mkResult (firstn (Z.to_nat n)
                             (skipn (Z.to_nat k)
                                (order_by_created_at_desc (links w))))), w)
    | _, _ => (None, w)
    end.

(* ------------------------------------------------------------------------- *)
(** ** Code validation and generation *)
(* ------------------------------------------------------------------------- *)

(** [const CODE_RE = /^[A-Za-z0-9]{6,8}$/]. *)
Definition CODE_RE : regexp :=
  [ mkAtom [("A", "Z"); ("a", "z"); ("0", "9")]%char 6 8 ].

(** The alphabet of [genCode]. *)
Definition chars : string :=
  "ABCDEFGHIJKLMNOPQRSTUVWXYZabcdefghijklmnopqrstuvwxyz0123456789".

(** [Math.random()]: the next value of the sequence.  The product with
    [chars.length] below is taken exactly; the product JavaScript computes
    is its rounding to a double, which lies in [0, 62) as well when the
    factor lies in [0, 1). *)
Definition Math_random (env : Env) : M Q :=
  fun w => (random env (random_calls w), mkWorld (links w) (S (random_calls w))).

Definition Math_floor (x : Q) : Z := Qfloor x.

(** [s[i]]; [None] is [undefined]. *)
Definition char_at (s : string) (i : Z) : option ascii :=
  if i <? 0 then None else String.get (Z.to_nat i) s.

(** [out += v]. *)
Definition append_char (out : string) (v : option ascii) : string :=
  match v with
  | Some c => out ++ String c EmptyString
  | None => out ++ "undefined"
  end.

(** The [for] loop of [genCode], with [n = len - i] rounds to go. *)
Fixpoint genCode_loop (env : Env) (n : nat) (out : string) : M string :=
  match n with
  | O => ret out
  | S n' =>
      (r <- Math_random env ;;
       genCode_loop env n'
         (append_char out
            (char_at chars (Math_floor (r * inject_Z (Z.of_nat (String.length chars)))))))%handler
  end.

(** [const genCode = (len = 7) => ...]. *)
Definition genCode (env : Env) (len : nat) : M string :=
  genCode_loop env len "".

Definition maxAttempts : nat := 10.

(** The [do ... while (attempts < maxAttempts)] loop of the create handler,
    entered with the current value of [attempts].  It returns [finalCode]
    and [attempts] as they are when the loop is left. *)
Equations? do_while (env : Env) (attempts : nat) (w : world)
  : (string * nat) * world by wf (maxAttempts - attempts)%nat lt :=
  do_while env attempts w with genCode env 7 w => {
    | (finalCode, w1) with select_one finalCode w1 => {
      | (q, w2) with (rowCount q =? 0)%nat => {
        | true => ((finalCode, attempts), w2)
        | false with inspect (S attempts <? maxAttempts)%nat => {
          | exist _ true H => do_while env (S attempts) w2
          | exist _ false _ => ((finalCode, S attempts), w2) } } } }.
Proof.
  apply Nat.ltb_lt in H.
  change (maxAttempts - S attempts < maxAttempts - attempts)%nat.
  unfold maxAttempts in *. lia.
Qed.

(* ------------------------------------------------------------------------- *)
(** ** The handlers *)
(* ------------------------------------------------------------------------- *)

Definition link_object (env : Env) (r : Link) : LinkObject :=
  mkLinkObject r (resolvedBaseUrl env ++ "/" ++ code r).

(** The [INSERT] and the 201 response that end the create handler; a
    failed statement is caught and answered with a server error. *)
Definition insert_and_reply (env : Env) (finalCode t : string) (now : timestamp)
  : M Response :=
  (ins <- insert_link env finalCode t now ;;
   match ins with
   | Some (mkResult (r :: _)) => ret (mkResponse 201 (JsonLink (link_object env r)))
   | _ => ret ServerError
   end)%handler.

(** The [try] block of the create handler, reached with a valid target. *)
Definition create_checked (env : Env) (t : string) (code : value) (now : timestamp)
  : M Response :=
  if negb (truthy code) then
    (r <- do_while env 0 ;;
     let '(finalCode, attempts) := r in
     if (maxAttempts <=? attempts)%nat then ret CodeGenerationExhausted
     else insert_and_reply env finalCode t now)%handler
  else
    (q <- select_one (ToString code) ;;
     if (0 <? rowCount q)%nat then ret CodeConflict
     else insert_and_reply env (ToString code) t now)%handler.

(** [app.post('/api/links')], called at time [now] with the fields
    [target] and [code] of the request body. *)
Definition create (env : Env) (target code : value) (now : timestamp) : M Response :=
  match target with
  | None | Some EmptyString => ret TargetRequired
  | Some t =>
      if negb (isWebUri env t) then ret InvalidTargetURL
      else if truthy code && negb (RegExp_test CODE_RE code) then ret InvalidCode
      else create_checked env t code now
  end.

(** [app.get('/:code')], called at time [now]; [test] is the query
    parameter of that name. *)
Definition resolveAndRecordVisit (c : string) (test : value) (now : timestamp)
  : M Response :=
  (q <- update_click c now ;;
   if (rowCount q =? 0)%nat then ret NotFoundText
   else
     match rows q with
     | t :: _ =>
         match test with
         | Some "1" => ret (mkResponse 200 (JsonClick "click updated" t))
         | _ => ret (mkResponse 302 (Location t))
         end
     | [] => ret (mkResponse 500 (Text "server error"))
     end)%handler.

(** The target a response of the redirect route carries. *)
Definition returned_target (r : Response) : option string :=
  match body r with
  | JsonClick _ t => Some t
  | Location t => Some t
  | _ => None
  end.

(** [app.get('/api/links/:code')]. *)
Definition getMetadata (env : Env) (c : string) : M Response :=
  (q <- select_link c ;;
   if (rowCount q =? 0)%nat then ret NotFound
   else
     match rows q with
     | r :: _ => ret (mkResponse 200 (JsonLink (link_object env r)))
     | [] => ret ServerError
     end)%handler.

(** [Math.min(100, parseInt(req.query.limit, 10) || 50)]. *)
Definition list_limit (limit : value) : number :=
  Math_min (Num 100) (or_else (parseInt limit) (Num 50)).

(** [parseInt(req.query.offset, 10) || 0]. *)
Definition list_offset (offset : value) : number :=
  or_else (parseInt offset) (Num 0).

(** [app.get('/api/links')]. *)
Definition list_links (env : Env) (limit offset : value) : M Response :=
  (q <- select_page (list_limit limit) (list_offset offset) ;;
   match q with
   | Some q =>
       let rows := map (link_object env) (rows q) in
       ret (mkResponse 200 (JsonList (length rows) rows))
   | None => ret ServerError
   end)%handler.

(** [app.delete('/api/links/:code')]. *)
Definition delete (c : string) : M Response :=
  (q <- delete_link c ;;
   if (rowCount q =? 0)%nat then ret NotFound
   else
     match rows q with
     | d :: _ => ret (mkResponse 200 (JsonDeleted d))
     | [] => ret ServerError
     end)%handler.

(* ------------------------------------------------------------------------- *)
(** ** Vocabulary of the statements *)
(* ------------------------------------------------------------------------- *)

(** A letter or a digit, by its character code. *)
Definition is_alnum (c : ascii) : bool :=
  let n := nat_of_ascii c in
  ((65 <=? n) && (n <=? 90) || (97 <=? n) && (n <=? 122)
   || (48 <=? n) && (n <=? 57))%nat.

Fixpoint string_forall (p : ascii -> bool) (s : string) : bool :=
  match s with
  | EmptyString => true
  | String c s' => p c && string_forall p s'
  end.

Fixpoint string_mem (c : ascii) (s : string) : bool :=
  match s with
  | EmptyString => false
  | String d s' => Ascii.eqb c d || string_mem c s'
  end.

(** Alphanumeric, of length 6 to 8. *)
Definition strict_code (s : string) : bool :=
  (6 <=? String.length s)%nat && (String.length s <=? 8)%nat
  && string_forall is_alnum s.

(** A target the create handler accepts. *)
Definition valid_target (env : Env) (t : string) : Prop :=
  t <> "" /\ isWebUri env t = true.

(** Some row of the store has the code [c]. *)
Definition taken (c : string) (w : world) : bool :=
  existsb (has_code c) (links w).

(** The link with the code [c]: the first row a [WHERE code = c] returns. *)
Definition lookup (c : string) (w : world) : option Link :=
  find (has_code c) (links w).

(** The code the [k]-th round of the generation loop draws, counting from
    0, when the loop is entered in [w]. *)
Definition candidate (env : Env) (w : world) (k : nat) : string :=
  fst (genCode env 7 (mkWorld (links w) (random_calls w + 7 * k))).

(** The 201 response for a fresh row. *)
Definition Created (env : Env) (c t : string) (now : timestamp) : Response :=
  mkResponse 201 (JsonLink (link_object env (new_link c t now))).

(** The first non-blank character of the text is a minus sign. *)
Definition minus_signed (v : value) : bool :=
  match trim_start (ToString v) with
  | String c _ => (c =? "-")%char
  | EmptyString => false
  end.

(** The row-by-row effect of the [UPDATE] of the redirect route. *)
Definition clicked (c : string) (now : timestamp) (l : Link) : Link :=
  if has_code c l then click now l else l.

(** What a call of create can answer, and the store it leaves. *)
Inductive create_outcome (env : Env) (now : timestamp) (w : world)
  : Response -> world -> Prop :=
| out_target_required : create_outcome env now w TargetRequired w
| out_invalid_target : create_outcome env now w InvalidTargetURL w
| out_invalid_code : create_outcome env now w InvalidCode w
| out_conflict : create_outcome env now w CodeConflict w
| out_exhausted (calls : nat) :
    create_outcome env now w CodeGenerationExhausted (mkWorld (links w) calls)
| out_created (c t : string) (calls : nat) :
    taken c w = false ->
    create_outcome env now w (Created env c t now)
      (mkWorld (links w ++ [new_link c t now]) calls).

(** *** Sample environments *)

Definition sample_isWebUri (s : string) : bool :=
  String.prefix "http://" s || String.prefix "https://" s.

(** [Math.random()] runs through 0/62, 1/62, ..., 61/62 again and again. *)
Definition cycling_env : Env :=
  mkEnv sample_isWebUri "http://localhost:3000"
    (fun k => Z.of_nat (k mod 62) # 62) false.

(** [Math.random()] always returns 0, and [code] is declared unique. *)
Definition constant_env : Env :=
  mkEnv sample_isWebUri "http://localhost:3000" (fun _ => 0%Q) true.

(** A store that already holds the only code [constant_env] can draw. *)
Definition crowded_world : world :=
  mkWorld [mkLink "AAAAAAA" "https://example.org/a" 3 10 (Some 20);
           mkLink "docs2024" "https://example.org/docs" 0 11 None] 0.

(* ------------------------------------------------------------------------- *)
(** ** Start-up configuration *)
(* ------------------------------------------------------------------------- *)

(** Greedy [[...]*] followed by the continuation [k]. *)
Fixpoint match_star (cs : char_class) (s : string) (k : string -> bool) : bool :=
  match s with
  | String c s' => (in_class cs c && match_star cs s' k) || k s
  | EmptyString => k s
  end.

(** [[...]+$], tried at the start of [s]. *)
Definition match_plus_end (cs : char_class) (s : string) : bool :=
  match_exact cs 1 s (fun s1 => match_star cs s1 (match_atoms [])).

(** [s.replace(/\/+$/, '')]: the pattern is tried at index 0, then 1, and
    so on; the first match, which runs to the end of [s], is removed. *)
Fixpoint replace_trailing_slashes (s : string) : string :=
  if match_plus_end [("/", "/")]%char s then EmptyString
  else
    match s with
    | String c s' => String c (replace_trailing_slashes s')
    | EmptyString => EmptyString
    end.

(** [const LISTEN_PORT = PORT ? parseInt(PORT, 10) : 3000]. *)
Definition LISTEN_PORT (PORT : value) : number :=
  if truthy PORT then parseInt PORT else Num 3000.

(** The immediately invoked function that computes [resolvedBaseUrl].
    [show] is the conversion of a Number to a string that the template
    literal applies to [LISTEN_PORT]. *)
Definition resolvedBaseUrl_of (show : number -> string) (BASE_URL PORT : value)
  : string :=
  if truthy BASE_URL then replace_trailing_slashes (ToString BASE_URL)
  else "http://localhost:" ++ show (LISTEN_PORT PORT).

(** A string of [k] slashes. *)
Fixpoint slashes (k : nat) : string :=
  match k with
  | O => EmptyString
  | S k' => String "/" (slashes k')
  end.

(* ------------------------------------------------------------------------- *)
(** ** The admin page: what it sends to the create route *)
(* ------------------------------------------------------------------------- *)

Module AdminPage.

(** [String.prototype.trim]: white space is removed at both ends. *)
Fixpoint trim_end (s : string) : string :=
  match s with
  | EmptyString => EmptyString
  | String c s' =>
      match trim_end s' with
      | EmptyString => if is_white_space c then EmptyString else String c EmptyString
      | r => String c r
      end
  end.

Definition trim (s : string) : string := trim_end (trim_start s).

(** The class [[A-Za-z0-9-_]]: after the range [0-9] the hyphen stands for
    itself. *)
Definition custom_code_class : char_class :=
  [("A", "Z"); ("a", "z"); ("0", "9"); ("-", "-"); ("_", "_")]%char.

(** The two messages of [validateCustomCode]: "Custom code must be 4-12
    characters." and "Custom code may only contain letters, numbers, hyphen
    and underscore." *)
Inductive message : Type :=
| MustBe4To12Characters
| OnlyLettersNumbersHyphenUnderscore.

(** The object [validateCustomCode] returns; a field that is not set is
    [None]. *)
Record validation : Type := mkValidation {
  ok : bool;
  msg : option message;
  code : value
}.

(** [function validateCustomCode(code)], on the text of the input field. *)
Definition validateCustomCode (code : string) : validation :=
  if negb (truthy (Some code)) then mkValidation true None None
  else
    let c := trim code in
    if (String.length c <? 4)%nat || (12 <? String.length c)%nat
    then mkValidation false (Some MustBe4To12Characters) None
    else if negb (match_plus_end custom_code_class c)
    then mkValidation false (Some OnlyLettersNumbersHyphenUnderscore) None
    else mkValidation true None (Some c).

(** What [createLink] does with the two input fields: it shows a message
    and sends nothing, or it posts a body to [/api/links]. *)
Inductive submission : Type :=
| TargetRequiredMessage
| CodeMessage (m : option message)
| Post (target : string) (code : value).

(** [createLink], up to the [fetch]: [target] and [customCode] are the
    texts of the input fields. *)
Definition createLink (target customCode : string) : submission :=
  let trimmedTarget := trim (if truthy (Some target) then target else "") in
  if negb (truthy (Some trimmedTarget)) then TargetRequiredMessage
  else
    let v := validateCustomCode customCode in
    if negb (ok v) then CodeMessage (msg v)
    else Post trimmedTarget (if truthy (code v) then code v else None).

(** The string a template literal makes of a Number that is an integer
    of absolute value below 10^21: its decimal digits, after a minus sign
    when it is negative. *)
Definition show_integer (z : Z) : string :=
  NilZero.string_of_int (Z.to_int z).

(** [useFetchLinks(20)]: the page never changes [limit]. *)
Definition page_limit : Z := 20.

(** The two page controls. *)
Inductive button : Type :=
| Prev
| Next.

(** [setOffset(Math.max(0, offset - limit))] and [setOffset(offset + limit)]. *)
Definition press (b : button) (offset : Z) : Z :=
  match b with
  | Prev => Z.max 0 (offset - page_limit)
  | Next => offset + page_limit
  end.

(** The offset after a run of presses, first press first. *)
Fixpoint offset_after (bs : list button) (offset : Z) : Z :=
  match bs with
  | [] => offset
  | b :: rest => offset_after rest (press b offset)
  end.

(** The [limit] and [offset] parameters of the URL that [fetchPage]
    requests, [/api/links?limit=${l}&offset=${o}], as the list route reads
    them from [req.query]. *)
Definition fetchPage_query (l o : Z) : value * value :=
  (Some (show_integer l), Some (show_integer o)).

End AdminPage.

(* ------------------------------------------------------------------------- *)
(** ** Vocabulary of the further statements *)
(* ------------------------------------------------------------------------- *)

(** Calls of the redirect route in a row, one at each time of [nows]. *)
Fixpoint visits (c : string) (test : value) (nows : list timestamp) (w : world)
  : world :=
  match nows with
  | [] => w
  | now :: rest => visits c test rest (snd (resolveAndRecordVisit c test now w))
  end.

(** No two rows of the store share a code. *)
Definition unique_codes (w : world) : Prop := NoDup (map code (links w)).

(** Every stored code is alphanumeric, of length 6 to 8. *)
Definition strict_codes (w : world) : Prop :=
  Forall (fun l => strict_code (code l) = true) (links w).

(** A letter, a digit, a hyphen or an underscore. *)
Definition custom_char (c : ascii) : bool :=
  is_alnum c || (c =? "-")%char || (c =? "_")%char.

(** [a] was created no earlier than [b]. *)
Definition newer_or_same (a b : Link) : Prop := created_at b <= created_at a.

(* ------------------------------------------------------------------------- *)
(** ** Proof steps *)
(* ------------------------------------------------------------------------- *)

(** Splits a statement about a parsed number into its cases and closes
    those that are plain arithmetic. *)
Ltac number_cases :=
  repeat split; intros;
  repeat match goal with
    | H : Num ?a = Num ?b |- _ =>
        injection H as H; first [subst b | subst a | idtac]
    | H : NaN = Num _ |- _ => discriminate H
    | H : Num _ = NaN |- _ => discriminate H
    | H : _ \/ _ |- _ => destruct H
    end;
  try reflexivity; try lia.

(** Evaluates the [digit_value] of a character literal in the goal. *)
Ltac eval_digit :=
  match goal with
  | |- context [digit_value ?c] =>
      let v := eval vm_compute in (digit_value c) in
      change (digit_value c) with v; cbv iota beta
  end.

(* ------------------------------------------------------------------------- *)
(** ** The pattern [CODE_RE] *)
(* ------------------------------------------------------------------------- *)

Section Patterns.

Variable cs : char_class.

Lemma match_upto_end (n : nat) (s : string) :
  match_upto cs n s (match_atoms []) = true <->
  (String.length s <= n)%nat /\ string_forall (in_class cs) s = true.
Proof.
  revert s; induction n as [|n IH]; intros [|c s]; cbn.
  - split; [intros _; split; [lia | reflexivity] | reflexivity].
  - split; [discriminate | intros [H _]; lia].
  - split; [intros _; split; [lia | reflexivity] | reflexivity].
  - rewrite orb_false_r, andb_true_iff, IH. split.
    + intros (Hc & Hl & Hs). rewrite Hc, Hs. split; [lia | reflexivity].
    + intros (Hl & H). apply andb_true_iff in H as [Hc Hs].
      repeat split; [assumption | lia | assumption].
Qed.

Lemma match_exact_upto_end (lo extra : nat) (s : string) :
  match_exact cs lo s (fun s1 => match_upto cs extra s1 (match_atoms [])) = true <->
  (lo <= String.length s <= lo + extra)%nat /\ string_forall (in_class cs) s = true.
Proof.
  revert s; induction lo as [|lo IH]; intros s.
  - cbn [match_exact]. rewrite match_upto_end. cbn. intuition lia.
  - destruct s as [|c s]; cbn [match_exact String.length string_forall].
    + split; [discriminate | intros [[H _] _]; lia].
    + rewrite !andb_true_iff, IH. cbn. intuition lia.
Qed.

End Patterns.

Lemma string_forall_ext (p q : ascii -> bool) (s : string) :
  (forall c, p c = q c) -> string_forall p s = string_forall q s.
Proof.
  intros E; induction s as [|c s IH]; cbn; [reflexivity | now rewrite E, IH].
Qed.

Lemma in_class_CODE_RE (c : ascii) :
  in_class [("A", "Z"); ("a", "z"); ("0", "9")]%char c = is_alnum c.
Proof.
  unfold in_class, is_alnum. cbn [existsb fst snd].
  change (nat_of_ascii "A") with 65%nat. change (nat_of_ascii "Z") with 90%nat.
  change (nat_of_ascii "a") with 97%nat. change (nat_of_ascii "z") with 122%nat.
  change (nat_of_ascii "0") with 48%nat. change (nat_of_ascii "9") with 57%nat.
  now rewrite orb_false_r, orb_assoc.
Qed.

(** [CODE_RE.test(s)] holds exactly for the alphanumeric strings of length
    6 to 8. *)
Lemma CODE_RE_test_strict (s : string) :
  RegExp_test CODE_RE (Some s) = strict_code s.
Proof.
  apply eq_true_iff_eq. unfold RegExp_test, CODE_RE, strict_code.
  cbn [match_atoms ToString cls rmin rmax].
  rewrite match_exact_upto_end, !andb_true_iff, !Nat.leb_le.
  rewrite (string_forall_ext _ _ s in_class_CODE_RE).
  change (6 + (8 - 6))%nat with 8%nat. tauto.
Qed.

(* ------------------------------------------------------------------------- *)
(** ** Strings *)
(* ------------------------------------------------------------------------- *)

Lemma string_app_assoc (s1 s2 s3 : string) : (s1 ++ s2) ++ s3 = s1 ++ (s2 ++ s3).
Proof. induction s1 as [|c s1 IH]; cbn; [reflexivity | now rewrite IH]. Qed.

Lemma get_in_range (s : string) (k : nat) :
  (k < String.length s)%nat -> exists c, String.get k s = Some c.
Proof.
  revert k; induction s as [|d s IH]; intros k Hk; cbn in Hk; [lia|].
  destruct k as [|k]; cbn; [now exists d | apply IH; lia].
Qed.

Lemma get_string_mem (s : string) (k : nat) (c : ascii) :
  String.get k s = Some c -> string_mem c s = true.
Proof.
  revert k; induction s as [|d s IH]; intros k; cbn; [discriminate|].
  destruct k as [|k].
  - intros [= ->]. now rewrite Ascii.eqb_refl.
  - intros H. rewrite (IH _ H). apply orb_true_r.
Qed.

Lemma string_forall_mem (p : ascii -> bool) (s : string) (c : ascii) :
  string_forall p s = true -> string_mem c s = true -> p c = true.
Proof.
  induction s as [|d s IH]; cbn; [discriminate|].
  intros [Hd Hs]%andb_true_iff [E | Hm]%orb_true_iff.
  - apply Ascii.eqb_eq in E. now subst.
  - now apply IH.
Qed.

(* ------------------------------------------------------------------------- *)
(** ** [genCode] *)
(* ------------------------------------------------------------------------- *)

(** A Number of [0, 1), scaled by 62 and floored, is an index of [chars]. *)
Lemma floor_index (r : Q) :
  (0 <= r)%Q -> (r < 1)%Q -> 0 <= Math_floor (r * inject_Z 62) < 62.
Proof.
  intros H0 H1. unfold Math_floor. split.
  - apply Z.le_trans with (Qfloor 0%Q); [reflexivity|].
    apply Qfloor_resp_le. apply Qmult_le_0_compat; [assumption | discriminate].
  - rewrite Zlt_Qlt. apply Qle_lt_trans with (r * inject_Z 62)%Q.
    + apply Qfloor_le.
    + change (inject_Z 62) with (1 * inject_Z 62)%Q at 2.
      apply Qmult_lt_compat_r; [reflexivity | assumption].
Qed.

Lemma char_at_chars (i : Z) :
  0 <= i < 62 -> exists c, char_at chars i = Some c /\ string_mem c chars = true.
Proof.
  intros Hi. unfold char_at. destruct (Z.ltb_spec i 0) as [|_]; [lia|].
  destruct (get_in_range chars (Z.to_nat i)) as [c Hc].
  - change (String.length chars) with 62%nat. lia.
  - exists c. split; [assumption | exact (get_string_mem _ _ _ Hc)].
Qed.

(** [genCode] does not touch the rows and makes [len] calls of
    [Math.random()]. *)
Lemma genCode_loop_world (env : Env) (n : nat) (out : string) (w : world) :
  snd (genCode_loop env n out w) = mkWorld (links w) (random_calls w + n).
Proof.
  revert out w; induction n as [|n IH]; intros out w; cbn.
  - destruct w as [ls k]; cbn. now rewrite Nat.add_0_r.
  - unfold bind, Math_random. rewrite IH. cbn. f_equal. lia.
Qed.

Lemma genCode_loop_alphabet (env : Env) (n : nat) (out : string) (w : world) :
  random_in_unit env ->
  exists s, fst (genCode_loop env n out w) = out ++ s
            /\ String.length s = n
            /\ string_forall (fun c => string_mem c chars) s = true.
Proof.
  intros Hr. revert out w; induction n as [|n IH]; intros out w; cbn [genCode_loop].
  - exists EmptyString. repeat split. cbn. clear. induction out; cbn; congruence.
  - unfold bind, Math_random. cbv beta iota.
    change (Z.of_nat (String.length chars)) with 62.
    destruct (Hr (random_calls w)) as [H0 H1].
    destruct (char_at_chars _ (floor_index _ H0 H1)) as (c & Hc & Hm).
    rewrite Hc. cbn [append_char].
    destruct (IH (out ++ String c EmptyString)
                (mkWorld (links w) (S (random_calls w)))) as (s & Hs & Hl & Ha).
    exists (String c s). rewrite Hs, string_app_assoc.
    cbn [append String.length string_forall].
    rewrite Hl, Hm, Ha. repeat split.
Qed.

Lemma genCode_candidate (env : Env) (w : world) :
  genCode env 7 w = (candidate env w 0, mkWorld (links w) (random_calls w + 7)).
Proof.
  rewrite (surjective_pairing (genCode env 7 w)). unfold genCode at 2.
  rewrite genCode_loop_world. f_equal.
  unfold candidate. rewrite Nat.mul_0_r, Nat.add_0_r. now destruct w.
Qed.

Lemma candidate_shift (env : Env) (w : world) (k : nat) :
  candidate env (mkWorld (links w) (random_calls w + 7)) k = candidate env w (S k).
Proof.
  unfold candidate. cbn [links random_calls]. do 3 f_equal. lia.
Qed.

(** Every generated code has 7 characters of the alphabet and passes
    [CODE_RE]. *)
Lemma candidate_alphabet (env : Env) (w : world) (k : nat) :
  random_in_unit env ->
  String.length (candidate env w k) = 7%nat
  /\ string_forall (fun c => string_mem c chars) (candidate env w k) = true.
Proof.
  intros Hr. unfold candidate, genCode.
  destruct (genCode_loop_alphabet env 7 EmptyString
              (mkWorld (links w) (random_calls w + 7 * k)) Hr) as (s & -> & Hl & Ha).
  now split.
Qed.

Lemma chars_alnum : string_forall is_alnum chars = true.
Proof. reflexivity. Qed.

Lemma candidate_strict (env : Env) (w : world) (k : nat) :
  random_in_unit env -> strict_code (candidate env w k) = true.
Proof.
  intros Hr. destruct (candidate_alphabet env w k Hr) as [Hl Ha].
  unfold strict_code. rewrite Hl. cbn [Nat.leb andb].
  revert Ha. generalize (candidate env w k) as s. clear.
  induction s as [|c s IH]; cbn [string_forall]; [reflexivity|].
  intros [Hc Hs]%andb_true_iff.
  now rewrite (string_forall_mem _ _ _ chars_alnum Hc), IH.
Qed.

(* ------------------------------------------------------------------------- *)
(** ** The store *)
(* ------------------------------------------------------------------------- *)

Lemma filter_none {A : Type} (p : A -> bool) (l : list A) :
  (length (filter p l) =? 0)%nat = negb (existsb p l).
Proof.
  induction l as [|a l IH]; cbn; [reflexivity|].
  destruct (p a); cbn; [reflexivity | exact IH].
Qed.

Lemma select_one_rowCount (c : string) (w : world) :
  (rowCount (fst (select_one c w)) =? 0)%nat = negb (taken c w).
Proof.
  unfold rowCount, select_one, taken. cbn [fst rows].
  rewrite length_map. apply filter_none.
Qed.

Lemma select_one_world (c : string) (w : world) : snd (select_one c w) = w.
Proof. reflexivity. Qed.

Lemma has_code_eq (c : string) (l : Link) : has_code c l = true <-> code l = c.
Proof. unfold has_code. apply String.eqb_eq. Qed.

Lemma taken_app (c : string) (ls : list Link) (l : Link) (k k' : nat) :
  taken c (mkWorld (ls ++ [l]) k) = taken c (mkWorld ls k') || has_code c l.
Proof.
  unfold taken. cbn [links]. rewrite existsb_app. cbn. now rewrite orb_false_r.
Qed.

Lemma lookup_none_taken (c : string) (w : world) :
  lookup c w = None <-> taken c w = false.
Proof.
  unfold lookup, taken. induction (links w) as [|l ls IH]; cbn; [tauto|].
  destruct (has_code c l); cbn; [split; discriminate | exact IH].
Qed.

(* ------------------------------------------------------------------------- *)
(** ** The generation loop *)
(* ------------------------------------------------------------------------- *)

(** The loop, unfolded once. *)
Lemma do_while_body (env : Env) (attempts : nat) (w : world) :
  do_while env attempts w =
  let '(finalCode, w1) := genCode env 7 w in
  let '(q, w2) := select_one finalCode w1 in
  if (rowCount q =? 0)%nat then ((finalCode, attempts), w2)
  else if (S attempts <? maxAttempts)%nat then do_while env (S attempts) w2
       else ((finalCode, S attempts), w2).
Proof.
  simp do_while. destruct (genCode env 7 w) as [finalCode w1]. simpl.
  destruct (rowCount _ =? 0)%nat; simpl; [reflexivity|].
  destruct (S attempts <? maxAttempts)%nat eqn:E; simpl; reflexivity.
Qed.

(** One round, in terms of the candidate drawn and the codes taken. *)
Lemma do_while_round (env : Env) (attempts : nat) (w : world) :
  do_while env attempts w =
  let w1 := mkWorld (links w) (random_calls w + 7) in
  if taken (candidate env w 0) w then
    if (S attempts <? maxAttempts)%nat then do_while env (S attempts) w1
    else ((candidate env w 0, S attempts), w1)
  else ((candidate env w 0, attempts), w1).
Proof.
  rewrite do_while_body, genCode_candidate.
  rewrite (surjective_pairing (select_one _ _)).
  rewrite select_one_rowCount, select_one_world.
  cbv zeta. unfold taken at 1. cbn [links].
  fold (taken (candidate env w 0) w). now destruct (taken _ w).
Qed.

Lemma taken_calls (c : string) (w : world) (k : nat) :
  taken c (mkWorld (links w) k) = taken c w.
Proof. reflexivity. Qed.

(** The loop stops at the first candidate that is not taken. *)
Lemma do_while_found (env : Env) (k : nat) :
  forall (a : nat) (w : world),
    (a + k < maxAttempts)%nat ->
    (forall j, (j < k)%nat -> taken (candidate env w j) w = true) ->
    taken (candidate env w k) w = false ->
    do_while env a w
    = ((candidate env w k, (a + k)%nat),
       mkWorld (links w) (random_calls w + 7 * (k + 1))).
Proof.
  induction k as [|k IH]; intros a w Ha Hbefore Hfree; rewrite do_while_round; cbv zeta.
  - rewrite Hfree. do 2 f_equal; lia.
  - rewrite (Hbefore 0%nat) by lia.
    replace (S a <? maxAttempts)%nat with true by (symmetry; apply Nat.ltb_lt; lia).
    rewrite IH.
    + cbn [links random_calls]. rewrite candidate_shift. do 2 f_equal; lia.
    + lia.
    + intros j Hj. rewrite candidate_shift, taken_calls. apply Hbefore. lia.
    + rewrite candidate_shift, taken_calls. exact Hfree.
Qed.

(** When every candidate is taken the loop is left with
    [attempts = maxAttempts]. *)
Lemma do_while_exhausted (env : Env) (m : nat) :
  forall (a : nat) (w : world),
    (a + S m = maxAttempts)%nat ->
    (forall j, (j <= m)%nat -> taken (candidate env w j) w = true) ->
    do_while env a w
    = ((candidate env w m, maxAttempts),
       mkWorld (links w) (random_calls w + 7 * S m)).
Proof.
  induction m as [|m IH]; intros a w Ha Hall; rewrite do_while_round; cbv zeta;
    rewrite (Hall 0%nat) by lia.
  - replace (S a <? maxAttempts)%nat with false by (symmetry; apply Nat.ltb_ge; lia).
    do 2 f_equal; lia.
  - replace (S a <? maxAttempts)%nat with true by (symmetry; apply Nat.ltb_lt; lia).
    rewrite IH.
    + cbn [links random_calls]. rewrite candidate_shift. do 2 f_equal; lia.
    + lia.
    + intros j Hj. rewrite candidate_shift, taken_calls. apply Hall. lia.
Qed.

(** Among the first [n] values of a test there is a first failure, or none. *)
Lemma first_failure (P : nat -> bool) (n : nat) :
  (exists k, (k < n)%nat /\ P k = false /\ forall j, (j < k)%nat -> P j = true)
  \/ (forall j, (j < n)%nat -> P j = true).
Proof.
  induction n as [|n [(k & Hk & Hf & Hb) | Hall]].
  - right. intros j Hj. lia.
  - left. exists k. repeat split; [lia | assumption | assumption].
  - destruct (P n) eqn:E.
    + right. intros j Hj. destruct (Nat.eq_dec j n) as [->|]; [assumption|].
      apply Hall. lia.
    + left. exists n. repeat split; [lia | assumption | assumption].
Qed.

(* ------------------------------------------------------------------------- *)
(** ** The create handler, path by path *)
(* ------------------------------------------------------------------------- *)

(** The insert of a code that is not taken succeeds. *)
Lemma insert_and_reply_fresh (env : Env) (c t : string) (now : timestamp) (w : world) :
  taken c w = false ->
  insert_and_reply env c t now w
  = (Created env c t now, mkWorld (links w ++ [new_link c t now]) (random_calls w)).
Proof.
  intros Hfree. unfold insert_and_reply, bind, insert_link.
  fold (taken c w). rewrite Hfree, andb_false_r. reflexivity.
Qed.

(** The path of a requested code. *)
Lemma create_requested (env : Env) (t c : string) (now : timestamp) (w : world) :
  valid_target env t -> c <> "" ->
  create env (Some t) (Some c) now w
  = if negb (RegExp_test CODE_RE (Some c)) then (InvalidCode, w)
    else if taken c w then (CodeConflict, w)
    else (Created env c t now,
          mkWorld (links w ++ [new_link c t now]) (random_calls w)).
Proof.
  intros [Ht Hweb] Hc. unfold create.
  destruct t as [|t0 t']; [contradiction|]. rewrite Hweb. cbn [negb].
  destruct c as [|c0 c']; [contradiction|]. cbn [truthy andb].
  destruct (RegExp_test CODE_RE _); cbn [negb]; [|reflexivity].
  unfold create_checked. cbn [truthy negb ToString]. unfold bind.
  rewrite (surjective_pairing (select_one _ w)), select_one_world.
  replace (0 <? rowCount (fst (select_one (String c0 c') w)))%nat
    with (taken (String c0 c') w).
  - destruct (taken _ w) eqn:E; [reflexivity|].
    now apply insert_and_reply_fresh.
  - pose proof (select_one_rowCount (String c0 c') w) as H.
    destruct (rowCount _) as [|n]; cbn in *.
    + now destruct (taken _ w).
    + now destruct (taken _ w).
Qed.

(** The path of a missing (or empty) code. *)
Lemma create_generated (env : Env) (t : string) (code : value) (now : timestamp)
  (w : world) :
  valid_target env t -> truthy code = false ->
  create env (Some t) code now w
  = let '((finalCode, attempts), w1) := do_while env 0 w in
    if (maxAttempts <=? attempts)%nat then (CodeGenerationExhausted, w1)
    else insert_and_reply env finalCode t now w1.
Proof.
  intros [Ht Hweb] Hc. unfold create.
  destruct t as [|t0 t']; [contradiction|]. rewrite Hweb, Hc. cbn [negb andb].
  unfold create_checked. rewrite Hc. cbn [negb]. unfold bind.
  destruct (do_while env 0 w) as [[finalCode attempts] w1].
  now destruct (maxAttempts <=? attempts)%nat.
Qed.

(* ------------------------------------------------------------------------- *)
(** ** The redirect route and the metadata route *)
(* ------------------------------------------------------------------------- *)

Lemma find_head_filter {A : Type} (p : A -> bool) (ls : list A) :
  find p ls = hd_error (filter p ls).
Proof.
  induction ls as [|a ls IH]; cbn; [reflexivity|]. now destruct (p a).
Qed.

Lemma find_map_stable {A : Type} (p : A -> bool) (f : A -> A) (ls : list A) :
  (forall a, p (f a) = p a) ->
  find p (map f ls) = option_map f (find p ls).
Proof.
  intros Hf. induction ls as [|a ls IH]; cbn; [reflexivity|].
  rewrite Hf. now destruct (p a).
Qed.

Lemma world_eta (w : world) : mkWorld (links w) (random_calls w) = w.
Proof. now destruct w. Qed.

Lemma clicked_has_code (c : string) (now : timestamp) (l : Link) :
  has_code c (clicked c now l) = has_code c l.
Proof. unfold clicked. now destruct (has_code c l) eqn:E. Qed.

(** The route changes the store by its single [UPDATE] and nothing else. *)
Lemma visit_world (c : string) (test : value) (now : timestamp) (w : world) :
  snd (resolveAndRecordVisit c test now w) = snd (update_click c now w).
Proof.
  unfold resolveAndRecordVisit, bind.
  destruct (update_click c now w) as [q w1]. cbn [snd].
  destruct (rowCount q =? 0)%nat; [reflexivity|].
  destruct (rows q) as [|t ts]; [reflexivity|].
  destruct test as [[|[[] [] [] [] [] [] [] []] [|b s]]|]; reflexivity.
Qed.

Lemma visit_found (c : string) (test : value) (now : timestamp) (w : world) (l : Link) :
  lookup c w = Some l ->
  returned_target (fst (resolveAndRecordVisit c test now w)) = Some (target l).
Proof.
  unfold lookup. rewrite find_head_filter. intros Hl.
  unfold resolveAndRecordVisit, bind, update_click, rowCount. cbn [rows].
  destruct (filter (has_code c) (links w)) as [|l0 ls]; [discriminate|].
  injection Hl as ->. cbn [map length Nat.eqb].
  destruct test as [[|[[] [] [] [] [] [] [] []] [|b s]]|]; reflexivity.
Qed.

Lemma visit_not_found (c : string) (test : value) (now : timestamp) (w : world) :
  lookup c w = None ->
  resolveAndRecordVisit c test now w = (NotFoundText, w).
Proof.
  intros Hl. pose proof Hl as Hnone. unfold lookup in Hl.
  rewrite find_head_filter in Hl.
  unfold resolveAndRecordVisit, bind, update_click, rowCount. cbn [rows].
  destruct (filter (has_code c) (links w)) as [|l0 ls]; [|discriminate].
  cbn [map length Nat.eqb]. unfold ret. f_equal.
  transitivity (mkWorld (links w) (random_calls w)); [|apply world_eta]. f_equal.
  transitivity (map (fun l : Link => l) (links w)); [|apply map_id].
  apply map_ext_in. intros l Hin.
  unfold lookup in Hnone. now rewrite (find_none _ _ Hnone l Hin).
Qed.

(** C1: For every store and code, the redirect route performs exactly one
    conditional update.  When a link with the code exists, the response
    carries that link's target, the link's [clicks] grow by exactly 1, its
    [last_clicked] becomes the current time, and its [code], [target] and
    [created_at] stay as they were; rows with another code and the number
    of rows are unchanged.  When no link has the code, the answer is
    404 Not found and the store is unchanged. *)
Theorem C1_resolveAndRecordVisit (c : string) (test : value) (now : timestamp)
  (w : world) :
  snd (resolveAndRecordVisit c test now w) = snd (update_click c now w)
  /\ (forall l, lookup c w = Some l ->
        returned_target (fst (resolveAndRecordVisit c test now w)) = Some (target l)
        /\ lookup c (snd (resolveAndRecordVisit c test now w))
           = Some (mkLink (code l) (target l) (clicks l + 1) (created_at l) (Some now)))
  /\ (forall i l, nth_error (links w) i = Some l ->
        (code l = c ->
           nth_error (links (snd (resolveAndRecordVisit c test now w))) i
           = Some (mkLink (code l) (target l) (clicks l + 1) (created_at l) (Some now)))
        /\ (code l <> c ->
           nth_error (links (snd (resolveAndRecordVisit c test now w))) i = Some l))
  /\ length (links (snd (resolveAndRecordVisit c test now w))) = length (links w)
  /\ (lookup c w = None ->
        resolveAndRecordVisit c test now w = (NotFoundText, w)).
Proof.
  rewrite visit_world.
  assert (Hrows : links (snd (update_click c now w)) = map (clicked c now) (links w))
    by reflexivity.
  split; [reflexivity|]. split; [|split; [|split]].
  - intros l Hl. split; [now apply visit_found|].
    unfold lookup in *. rewrite Hrows.
    rewrite find_map_stable by apply clicked_has_code. rewrite Hl.
    cbn [option_map]. unfold clicked.
    now rewrite (proj2 (find_some _ _ Hl)).
  - intros i l Hi. rewrite Hrows, nth_error_map, Hi. cbn [option_map].
    unfold clicked. split; intros Hc.
    + now rewrite (proj2 (has_code_eq c l) Hc).
    + destruct (has_code c l) eqn:E; [|reflexivity].
      now apply has_code_eq in E.
  - rewrite Hrows. apply length_map.
  - apply visit_not_found.
Qed.

(** The metadata route reads the store and leaves it as it is. *)
Lemma getMetadata_world (env : Env) (c : string) (w : world) :
  snd (getMetadata env c w) = w.
Proof.
  unfold getMetadata, bind, select_link, rowCount. cbn [rows].
  destruct (filter (has_code c) (links w)) as [|l ls]; reflexivity.
Qed.

Lemma getMetadata_response (env : Env) (c : string) (w : world) :
  fst (getMetadata env c w)
  = match lookup c w with
    | Some l => mkResponse 200 (JsonLink (link_object env l))
    | None => NotFound
    end.
Proof.
  unfold lookup. rewrite find_head_filter.
  unfold getMetadata, bind, select_link, rowCount. cbn [rows].
  destruct (filter (has_code c) (links w)) as [|l ls]; reflexivity.
Qed.

(* ------------------------------------------------------------------------- *)
(** ** Requested codes *)
(* ------------------------------------------------------------------------- *)

Lemma CODE_RE_nonempty (c : string) :
  RegExp_test CODE_RE (Some c) = true -> c <> "".
Proof. intros H ->. discriminate H. Qed.

Lemma strict_code_short (c : string) :
  (String.length c < 6)%nat -> strict_code c = false.
Proof.
  intros H. unfold strict_code.
  destruct (Nat.leb_spec 6 (String.length c)); [lia | reflexivity].
Qed.

Lemma strict_code_long (c : string) :
  (8 < String.length c)%nat -> strict_code c = false.
Proof.
  intros H. unfold strict_code.
  destruct (Nat.leb_spec (String.length c) 8); [lia|].
  now rewrite andb_false_r.
Qed.

Lemma strict_code_member (c : string) (x : ascii) :
  is_alnum x = false -> string_mem x c = true -> strict_code c = false.
Proof.
  intros Hx Hm. unfold strict_code.
  destruct (string_forall is_alnum c) eqn:E; [|apply andb_false_r].
  rewrite (string_forall_mem _ _ _ E Hm) in Hx. discriminate.
Qed.

(** C2: With a valid target and a non-empty requested code, the create
    handler answers InvalidCode exactly when the code fails
    [/^[A-Za-z0-9]{6,8}$/], that is, when it is not an alphanumeric string
    of 6 to 8 characters.  In particular a code of fewer than 6 or more
    than 8 characters, or one with a hyphen or an underscore, is refused
    with InvalidCode. *)
Theorem C2_invalid_code (env : Env) (t c : string) (now : timestamp) (w : world) :
  valid_target env t -> c <> "" ->
  (fst (create env (Some t) (Some c) now w) = InvalidCode
   <-> RegExp_test CODE_RE (Some c) = false)
  /\ RegExp_test CODE_RE (Some c) = strict_code c
  /\ ((String.length c < 6)%nat ->
      create env (Some t) (Some c) now w = (InvalidCode, w))
  /\ ((8 < String.length c)%nat ->
      create env (Some t) (Some c) now w = (InvalidCode, w))
  /\ (string_mem "-" c = true \/ string_mem "_" c = true ->
      create env (Some t) (Some c) now w = (InvalidCode, w)).
Proof.
  intros Ht Hc. rewrite (create_requested env t c now w Ht Hc).
  rewrite CODE_RE_test_strict.
  split; [|split; [reflexivity|repeat split]].
  - destruct (strict_code c); cbn [negb fst].
    + split; [|discriminate]. destruct (taken c w); discriminate.
    + split; reflexivity.
  - intros H. now rewrite (strict_code_short c H).
  - intros H. now rewrite (strict_code_long c H).
  - intros [H | H].
    + now rewrite (strict_code_member c "-" eq_refl H).
    + now rewrite (strict_code_member c "_" eq_refl H).
Qed.

(** C3: With a valid target and a requested code that passes [CODE_RE]:
    when a link with the code exists, create answers CodeConflict and the
    store is unchanged; when none exists, create succeeds and appends the
    new row; and in either case a second create with the same code, run on
    the store the first one leaves, answers CodeConflict and changes
    nothing. *)
Theorem C3_code_conflict (env : Env) (t c : string) (now : timestamp) (w : world) :
  valid_target env t -> RegExp_test CODE_RE (Some c) = true ->
  (taken c w = true -> create env (Some t) (Some c) now w = (CodeConflict, w))
  /\ (taken c w = false ->
      create env (Some t) (Some c) now w
      = (Created env c t now,
         mkWorld (links w ++ [new_link c t now]) (random_calls w)))
  /\ (forall (t2 : string) (now2 : timestamp),
        valid_target env t2 ->
        create env (Some t2) (Some c) now2 (snd (create env (Some t) (Some c) now w))
        = (CodeConflict, snd (create env (Some t) (Some c) now w))).
Proof.
  intros Ht Hre. pose proof (CODE_RE_nonempty c Hre) as Hc.
  assert (Hreq : forall t' now' w', valid_target env t' ->
            create env (Some t') (Some c) now' w'
            = if taken c w' then (CodeConflict, w')
              else (Created env c t' now',
                    mkWorld (links w' ++ [new_link c t' now']) (random_calls w'))).
  { intros t' now' w' Ht'. rewrite (create_requested env t' c now' w' Ht' Hc).
    now rewrite Hre. }
  split; [|split].
  - intros Htaken. now rewrite Hreq, Htaken.
  - intros Hfree. now rewrite Hreq, Hfree.
  - intros t2 now2 Ht2. rewrite (Hreq t now w Ht).
    destruct (taken c w) eqn:Htaken; cbn [snd].
    + now rewrite Hreq, Htaken.
    + rewrite Hreq by assumption.
      rewrite (taken_app c (links w) (new_link c t now) _ (random_calls w)).
      rewrite (proj2 (has_code_eq c (new_link c t now)) eq_refl).
      now rewrite orb_true_r.
Qed.

(* ------------------------------------------------------------------------- *)
(** ** Generated codes *)
(* ------------------------------------------------------------------------- *)

(** Create without a code, when the [k]-th candidate is the first one that
    is not taken. *)
Lemma create_first_free (env : Env) (t : string) (code : value) (now : timestamp)
  (w : world) (k : nat) :
  valid_target env t -> truthy code = false ->
  (k < maxAttempts)%nat ->
  (forall j, (j < k)%nat -> taken (candidate env w j) w = true) ->
  taken (candidate env w k) w = false ->
  create env (Some t) code now w
  = (Created env (candidate env w k) t now,
     mkWorld (links w ++ [new_link (candidate env w k) t now])
             (random_calls w + 7 * (k + 1))).
Proof.
  intros Ht Hcode Hk Hbefore Hfree.
  rewrite (create_generated env t code now w Ht Hcode).
  rewrite (do_while_found env k 0 w Hk Hbefore Hfree). cbn [Nat.add].
  destruct (Nat.leb_spec maxAttempts k) as [|_]; [lia|].
  now rewrite insert_and_reply_fresh.
Qed.

(** Create without a code, when all ten candidates are taken. *)
Lemma create_all_taken (env : Env) (t : string) (code : value) (now : timestamp)
  (w : world) :
  valid_target env t -> truthy code = false ->
  (forall j, (j < maxAttempts)%nat -> taken (candidate env w j) w = true) ->
  create env (Some t) code now w
  = (CodeGenerationExhausted,
     mkWorld (links w) (random_calls w + 7 * maxAttempts)).
Proof.
  intros Ht Hcode Hall.
  rewrite (create_generated env t code now w Ht Hcode).
  rewrite (do_while_exhausted env 9 0 w); [reflexivity | reflexivity |].
  intros j Hj. apply Hall. unfold maxAttempts. lia.
Qed.

(** C5: Create without a code makes at most 10 generation attempts, each
    one drawing a 7-character candidate and looking it up in the store.
    It succeeds with the first candidate that is not in the store; when
    all 10 candidates are taken it answers CodeGenerationExhausted and
    inserts nothing. *)
Theorem C5_generation_loop (env : Env) (t : string) (now : timestamp) (w : world) :
  valid_target env t ->
  (forall k, (k < maxAttempts)%nat ->
     (forall j, (j < k)%nat -> taken (candidate env w j) w = true) ->
     taken (candidate env w k) w = false ->
     create env (Some t) None now w
     = (Created env (candidate env w k) t now,
        mkWorld (links w ++ [new_link (candidate env w k) t now])
                (random_calls w + 7 * (k + 1))))
  /\ ((forall j, (j < maxAttempts)%nat -> taken (candidate env w j) w = true) ->
      create env (Some t) None now w
      = (CodeGenerationExhausted,
         mkWorld (links w) (random_calls w + 7 * maxAttempts)))
  /\ (exists n, (1 <= n <= maxAttempts)%nat
                /\ random_calls (snd (create env (Some t) None now w))
                   = (random_calls w + 7 * n)%nat)
  /\ maxAttempts = 10%nat
  /\ (random_in_unit env ->
      forall k, String.length (candidate env w k) = 7%nat).
Proof.
  intros Ht. split; [|split; [|split; [|split; [reflexivity|]]]].
  4:{ intros Hr k. apply (candidate_alphabet env w k Hr). }
  - intros k. now apply create_first_free.
  - now apply create_all_taken.
  - destruct (first_failure (fun k => taken (candidate env w k) w) maxAttempts)
      as [(k & Hk & Hfree & Hbefore) | Hall].
    + exists (k + 1)%nat.
      rewrite (create_first_free env t None now w k Ht eq_refl Hk Hbefore Hfree).
      split; [lia | reflexivity].
    + exists maxAttempts.
      rewrite (create_all_taken env t None now w Ht eq_refl Hall).
      split; [unfold maxAttempts; lia | reflexivity].
Qed.

Lemma find_app {A : Type} (p : A -> bool) (l1 l2 : list A) :
  find p l1 = None -> find p (l1 ++ l2) = find p l2.
Proof.
  induction l1 as [|a l1 IH]; cbn; [reflexivity|].
  destruct (p a); [discriminate | exact IH].
Qed.

(** C4: With a valid target and no requested code, a successful create
    returns and stores a new link whose code passes [CODE_RE]: it has
    exactly 7 characters, all of the 62-character alphabet.  The link has
    [clicks = 0], [last_clicked = null] and [created_at] the time of the
    call, and the metadata route, asked for that code next, returns the
    same link with [clicks = 0]. *)
Theorem C4_generated_link (env : Env) (t : string) (now : timestamp) (w : world) :
  random_in_unit env -> valid_target env t ->
  status (fst (create env (Some t) None now w)) = 201%nat ->
  exists c : string,
    fst (create env (Some t) None now w)
    = mkResponse 201
        (JsonLink (mkLinkObject (mkLink c t 0 now None) (resolvedBaseUrl env ++ "/" ++ c)))
    /\ links (snd (create env (Some t) None now w))
       = (links w ++ [mkLink c t 0 now None])%list
    /\ RegExp_test CODE_RE (Some c) = true
    /\ String.length c = 7%nat
    /\ string_forall (fun a => string_mem a chars) c = true
    /\ String.length chars = 62%nat
    /\ getMetadata env c (snd (create env (Some t) None now w))
       = (mkResponse 200
            (JsonLink (mkLinkObject (mkLink c t 0 now None)
                         (resolvedBaseUrl env ++ "/" ++ c))),
          snd (create env (Some t) None now w)).
Proof.
  intros Hr Ht Hok.
  destruct (first_failure (fun k => taken (candidate env w k) w) maxAttempts)
    as [(k & Hk & Hfree & Hbefore) | Hall].
  - pose proof (create_first_free env t None now w k Ht eq_refl Hk Hbefore Hfree)
      as Hcreate.
    destruct (candidate_alphabet env w k Hr) as [Hlen Halpha].
    exists (candidate env w k). rewrite Hcreate. cbn [fst snd links].
    repeat split; try assumption.
    + rewrite CODE_RE_test_strict. now apply candidate_strict.
    + rewrite (surjective_pairing (getMetadata _ _ _)).
      rewrite getMetadata_world, getMetadata_response. f_equal.
      unfold lookup. cbn [links]. rewrite find_app.
      * cbn [find]. unfold has_code, new_link. cbn [code].
        now rewrite String.eqb_refl.
      * now apply lookup_none_taken.
  - rewrite (create_all_taken env t None now w Ht eq_refl Hall) in Hok.
    discriminate Hok.
Qed.

(* ------------------------------------------------------------------------- *)
(** ** Outcomes of create *)
(* ------------------------------------------------------------------------- *)

Lemma create_outcomes (env : Env) (target code : value) (now : timestamp) (w : world) :
  create_outcome env now w (fst (create env target code now w))
    (snd (create env target code now w)).
Proof.
  destruct target as [[|t0 t']|]; [constructor | | constructor].
  destruct (isWebUri env (String t0 t')) eqn:Hweb.
  2:{ unfold create. rewrite Hweb. constructor. }
  assert (Ht : valid_target env (String t0 t')) by (split; [discriminate | assumption]).
  destruct (truthy code) eqn:Hcode.
  - destruct code as [[|c0 c']|]; try discriminate Hcode.
    rewrite (create_requested env _ (String c0 c') now w Ht) by discriminate.
    destruct (RegExp_test CODE_RE _); cbn [negb]; [|constructor].
    destruct (taken _ w) eqn:E; constructor. exact E.
  - destruct (first_failure (fun k => taken (candidate env w k) w) maxAttempts)
      as [(k & Hk & Hfree & Hbefore) | Hall].
    + rewrite (create_first_free env _ code now w k Ht Hcode Hk Hbefore Hfree).
      now constructor.
    + rewrite (create_all_taken env _ code now w Ht Hcode Hall). constructor.
Qed.

(** C9: A create that does not answer 201 answers InvalidTarget,
    InvalidCode, CodeConflict or CodeGenerationExhausted, and leaves the
    rows of the store exactly as they were. *)
Theorem C9_create_failure_frame (env : Env) (target code : value) (now : timestamp)
  (w : world) :
  status (fst (create env target code now w)) <> 201%nat ->
  links (snd (create env target code now w)) = links w
  /\ (InvalidTarget (fst (create env target code now w))
      \/ fst (create env target code now w) = InvalidCode
      \/ fst (create env target code now w) = CodeConflict
      \/ fst (create env target code now w) = CodeGenerationExhausted).
Proof.
  intros Hfail.
  destruct (create_outcomes env target code now w); cbn [links];
    (split; [try reflexivity | unfold InvalidTarget; auto]).
  all: now contradiction Hfail.
Qed.

(** C10: A requested code that is the empty string is handled as a
    missing code, whatever the target: the pattern check is skipped, so the
    answer is not InvalidCode although the empty string fails [CODE_RE],
    and with a valid target the handler runs the generation loop and
    creates the link under the first free 7-character candidate. *)
Theorem C10_empty_code (env : Env) (t : string) (now : timestamp) (w : world) :
  random_in_unit env -> valid_target env t ->
  (forall target : value,
     create env target (Some "") now w = create env target None now w)
  /\ RegExp_test CODE_RE (Some "") = false
  /\ fst (create env (Some t) (Some "") now w) <> InvalidCode
  /\ (forall k, (k < maxAttempts)%nat ->
        (forall j, (j < k)%nat -> taken (candidate env w j) w = true) ->
        taken (candidate env w k) w = false ->
        create env (Some t) (Some "") now w
        = (Created env (candidate env w k) t now,
           mkWorld (links w ++ [new_link (candidate env w k) t now])
                   (random_calls w + 7 * (k + 1)))
        /\ String.length (candidate env w k) = 7%nat).
Proof.
  intros Hr Ht. split; [|split; [reflexivity|split]].
  - intros [[|t0 t']|]; reflexivity.
  - destruct (first_failure (fun k => taken (candidate env w k) w) maxAttempts)
      as [(k & Hk & Hfree & Hbefore) | Hall].
    + rewrite (create_first_free env t (Some "") now w k Ht eq_refl Hk Hbefore Hfree).
      discriminate.
    + rewrite (create_all_taken env t (Some "") now w Ht eq_refl Hall).
      discriminate.
  - intros k Hk Hbefore Hfree. split.
    + now apply create_first_free.
    + apply (candidate_alphabet env w k Hr).
Qed.

(* ------------------------------------------------------------------------- *)
(** ** Reads and deletes *)
(* ------------------------------------------------------------------------- *)

Lemma list_links_world (env : Env) (limit offset : value) (w : world) :
  snd (list_links env limit offset w) = w.
Proof.
  unfold list_links, bind, select_page.
  destruct (list_limit limit) as [|n]; [reflexivity|].
  destruct (list_offset offset) as [|k]; [reflexivity|].
  destruct ((n <? 0) || (k <? 0)); reflexivity.
Qed.

Lemma delete_rows (c : string) (w : world) :
  links (snd (delete c w)) = filter (fun l => negb (has_code c l)) (links w).
Proof.
  unfold delete, bind, delete_link, rowCount. cbn [rows].
  destruct (filter (has_code c) (links w)) as [|l ls]; reflexivity.
Qed.

(** C8: The metadata route is a pure read: it answers with the link that
    has the code, or with 404 when there is none, and the store it leaves
    is the store it found, so no [clicks] and no [last_clicked] changes.
    Of the other routes, the list route leaves the store as it is too,
    create only appends a row, and delete only removes rows: a change of
    [clicks] or [last_clicked] of a stored link comes from the redirect
    route alone. *)
Theorem C8_getMetadata_pure (env : Env) (c : string) (w : world) :
  snd (getMetadata env c w) = w
  /\ (forall l, lookup c w = Some l ->
        fst (getMetadata env c w) = mkResponse 200 (JsonLink (link_object env l))
        /\ row (link_object env l) = l /\ code l = c)
  /\ (lookup c w = None -> fst (getMetadata env c w) = NotFound)
  /\ (forall limit offset, snd (list_links env limit offset w) = w)
  /\ (forall target code now,
        exists new, links (snd (create env target code now w)) = (links w ++ new)%list)
  /\ (forall c', links (snd (delete c' w))
                 = filter (fun l => negb (has_code c' l)) (links w)).
Proof.
  split; [apply getMetadata_world|]. rewrite getMetadata_response.
  split; [|split; [|split; [|split]]].
  - intros l Hl. rewrite Hl. repeat split.
    apply has_code_eq. exact (proj2 (find_some _ _ Hl)).
  - intros Hl. now rewrite Hl.
  - intros limit offset. apply list_links_world.
  - intros target code now.
    destruct (create_outcomes env target code now w); cbn [links];
      try (exists []; now rewrite app_nil_r).
    now exists [new_link c0 t now].
  - intros c'. apply delete_rows.
Qed.

(* ------------------------------------------------------------------------- *)
(** ** The paging parameters of the list route *)
(* ------------------------------------------------------------------------- *)

Lemma digit_value_range (c : ascii) (d : Z) :
  digit_value c = Some d -> 0 <= d <= 9.
Proof.
  unfold digit_value.
  destruct (Nat.leb_spec 48 (nat_of_ascii c)); cbn [andb]; [|discriminate].
  destruct (Nat.leb_spec (nat_of_ascii c) 57); [|discriminate].
  intros [= <-]. lia.
Qed.

(** The digits read are a natural number. *)
Lemma read_digits_nonneg (s : string) :
  forall (acc : option Z) (m : Z),
    (forall a, acc = Some a -> 0 <= a) ->
    read_digits acc s = Some m -> 0 <= m.
Proof.
  induction s as [|c s IH]; intros acc m Hacc; cbn [read_digits].
  - apply Hacc.
  - destruct (digit_value c) as [d|] eqn:Hd; [|apply Hacc].
    apply IH. intros a Ha. apply digit_value_range in Hd.
    destruct acc as [a0|].
    + specialize (Hacc a0 eq_refl).
      assert (a = 10 * a0 + d) by congruence. lia.
    + assert (a = 10 * 0 + d) by congruence. lia.
Qed.

(** A text that does not start with a minus sign parses to no negative
    number. *)
Lemma parseInt_unsigned (v : value) (n : Z) :
  minus_signed v = false -> parseInt v = Num n -> 0 <= n.
Proof.
  unfold minus_signed, parseInt.
  destruct (trim_start (ToString v)) as [|c r]; cbv zeta.
  - discriminate.
  - intros ->. destruct (read_digits None _) as [m|] eqn:Hm; [|discriminate].
    intros Hn. assert (n = 1 * m) by congruence.
    apply read_digits_nonneg in Hm; [lia | discriminate].
Qed.

Lemma or_else_number (a : number) (d : Z) :
  or_else a (Num d)
  = match a with
    | NaN => Num d
    | Num n => if n =? 0 then Num d else Num n
    end.
Proof. destruct a as [|n]; [reflexivity|]. unfold or_else. cbn. now destruct (n =? 0). Qed.

(** C6: The limit the list route passes to the store is always a number
    that is at most 100.  It is 50 when the parameter is absent, does not
    parse or parses to 0, and the smaller of 100 and [n] when it parses to
    a positive [n].  It lies in the range 1 to 100 whenever the text of the
    parameter carries no minus sign. *)
Theorem C6_list_limit (limit : value) :
  exists z : Z,
    list_limit limit = Num z
    /\ z <= 100
    /\ (limit = None -> z = 50)
    /\ (parseInt limit = NaN \/ parseInt limit = Num 0 -> z = 50)
    /\ (forall n, parseInt limit = Num n -> 0 < n -> z = Z.min 100 n /\ 1 <= z)
    /\ (minus_signed limit = false -> 1 <= z <= 100).
Proof.
  unfold list_limit. rewrite or_else_number.
  pose proof (parseInt_unsigned limit) as Hsign.
  assert (Habsent : limit = None -> parseInt limit = NaN) by now intros ->.
  destruct (parseInt limit) as [|n] eqn:Hp.
  - exists 50. number_cases.
  - destruct (Z.eqb_spec n 0) as [->|Hn].
    + exists 50. number_cases.
    + exists (Z.min 100 n). cbn [Math_min]. number_cases.
      all: try match goal with H : _ = None |- _ => discriminate (Habsent H) end.
      all: match goal with
           | H : minus_signed _ = false |- _ => specialize (Hsign n H eq_refl); lia
           end.
Qed.

(** C7: The offset the list route passes to the store is always a
    number.  It is 0 when the parameter is absent or does not parse, and
    the parsed integer when that is not negative; it is not negative
    whenever the text of the parameter carries no minus sign. *)
Theorem C7_list_offset (offset : value) :
  exists z : Z,
    list_offset offset = Num z
    /\ (offset = None -> z = 0)
    /\ (parseInt offset = NaN -> z = 0)
    /\ (forall n, parseInt offset = Num n -> 0 <= n -> z = n)
    /\ (minus_signed offset = false -> 0 <= z).
Proof.
  unfold list_offset. rewrite or_else_number.
  pose proof (parseInt_unsigned offset) as Hsign.
  assert (Habsent : offset = None -> parseInt offset = NaN) by now intros ->.
  destruct (parseInt offset) as [|n] eqn:Hp.
  - exists 0. number_cases.
  - exists n. split; [now destruct (Z.eqb_spec n 0) as [->|]|]. number_cases.
    all: try match goal with H : _ = None |- _ => discriminate (Habsent H) end.
    all: match goal with
         | H : minus_signed _ = false |- _ => exact (Hsign n H eq_refl)
         end.
Qed.

(* ------------------------------------------------------------------------- *)
(** ** The statements at sample inputs *)
(* ------------------------------------------------------------------------- *)

Lemma cycling_env_in_unit : random_in_unit cycling_env.
Proof.
  intros k. cbn [random cycling_env]. unfold Qle, Qlt. cbn [Qnum Qden].
  pose proof (Nat.mod_upper_bound k 62). lia.
Qed.

(** The redirect route on a stored code, and on an unknown one. *)
Example visit_stored_code :
  resolveAndRecordVisit "AAAAAAA" None 30 crowded_world
  = (mkResponse 302 (Location "https://example.org/a"),
     mkWorld [mkLink "AAAAAAA" "https://example.org/a" 4 10 (Some 30);
              mkLink "docs2024" "https://example.org/docs" 0 11 None] 0).
Proof. reflexivity. Qed.

Example visit_unknown_code :
  resolveAndRecordVisit "nothere" (Some "1") 30 crowded_world
  = (NotFoundText, crowded_world).
Proof. reflexivity. Qed.

(** The two codes the specification names are refused. *)
Example code_ab_refused :
  create cycling_env (Some "https://example.org/page") (Some "ab") 30 crowded_world
  = (InvalidCode, crowded_world).
Proof. reflexivity. Qed.

Lemma C2_invalid_code_witness :
  valid_target cycling_env "https://example.org/page"
  /\ "Ab3_9" <> ""
  /\ create cycling_env (Some "https://example.org/page") (Some "Ab3_9") 30 crowded_world
     = (InvalidCode, crowded_world).
Proof.
  assert (Ht : valid_target cycling_env "https://example.org/page")
    by (split; [discriminate | reflexivity]).
  assert (Hc : "Ab3_9" <> "") by discriminate.
  split; [exact Ht | split; [exact Hc |]].
  apply (C2_invalid_code cycling_env _ "Ab3_9" 30 crowded_world Ht Hc).
  right. reflexivity.
Defined.

(** Two creates in a row with the same requested code. *)
Lemma C3_code_conflict_witness :
  valid_target cycling_env "https://example.org/page"
  /\ RegExp_test CODE_RE (Some "launch7") = true
  /\ create cycling_env (Some "https://example.org/page") (Some "launch7") 30
       crowded_world
     = (Created cycling_env "launch7" "https://example.org/page" 30,
        mkWorld (links crowded_world
                 ++ [new_link "launch7" "https://example.org/page" 30]) 0)
  /\ create cycling_env (Some "https://example.org/page") (Some "launch7") 31
       (snd (create cycling_env (Some "https://example.org/page") (Some "launch7") 30
               crowded_world))
     = (CodeConflict,
        snd (create cycling_env (Some "https://example.org/page") (Some "launch7") 30
               crowded_world)).
Proof.
  assert (Ht : valid_target cycling_env "https://example.org/page")
    by (split; [discriminate | reflexivity]).
  assert (Hre : RegExp_test CODE_RE (Some "launch7") = true) by reflexivity.
  pose proof (C3_code_conflict cycling_env "https://example.org/page" "launch7" 30
                crowded_world Ht Hre) as (_ & Hfirst & Hsecond).
  split; [exact Ht | split; [exact Hre | split]].
  - apply Hfirst. reflexivity.
  - apply Hsecond. exact Ht.
Defined.

Lemma C4_generated_link_witness :
  exists c : string,
    fst (create cycling_env (Some "https://example.org/page") None 30 crowded_world)
    = mkResponse 201
        (JsonLink (mkLinkObject (mkLink c "https://example.org/page" 0 30 None)
                     (resolvedBaseUrl cycling_env ++ "/" ++ c)))
    /\ links (snd (create cycling_env (Some "https://example.org/page") None 30
                     crowded_world))
       = (links crowded_world ++ [mkLink c "https://example.org/page" 0 30 None])%list
    /\ RegExp_test CODE_RE (Some c) = true
    /\ String.length c = 7%nat
    /\ string_forall (fun a => string_mem a chars) c = true
    /\ String.length chars = 62%nat
    /\ getMetadata cycling_env c
         (snd (create cycling_env (Some "https://example.org/page") None 30
                 crowded_world))
       = (mkResponse 200
            (JsonLink (mkLinkObject (mkLink c "https://example.org/page" 0 30 None)
                         (resolvedBaseUrl cycling_env ++ "/" ++ c))),
          snd (create cycling_env (Some "https://example.org/page") None 30
                 crowded_world)).
Proof.
  apply (C4_generated_link cycling_env "https://example.org/page" 30 crowded_world).
  - exact cycling_env_in_unit.
  - split; [discriminate | reflexivity].
  - vm_compute. reflexivity.
Defined.

(** With [constant_env] every candidate is "AAAAAAA", which is taken. *)
Lemma C5_generation_loop_witness :
  valid_target constant_env "https://example.org/page"
  /\ create constant_env (Some "https://example.org/page") None 30 crowded_world
     = (CodeGenerationExhausted, mkWorld (links crowded_world) 70).
Proof.
  assert (Ht : valid_target constant_env "https://example.org/page")
    by (split; [discriminate | reflexivity]).
  split; [exact Ht|].
  apply (C5_generation_loop constant_env "https://example.org/page" 30
           crowded_world Ht).
  intros j _. reflexivity.
Defined.

Lemma C9_create_failure_frame_witness :
  links (snd (create constant_env (Some "https://example.org/page") None 30
                crowded_world))
  = links crowded_world
  /\ (InvalidTarget
        (fst (create constant_env (Some "https://example.org/page") None 30
                crowded_world))
      \/ fst (create constant_env (Some "https://example.org/page") None 30
                crowded_world) = InvalidCode
      \/ fst (create constant_env (Some "https://example.org/page") None 30
                crowded_world) = CodeConflict
      \/ fst (create constant_env (Some "https://example.org/page") None 30
                crowded_world) = CodeGenerationExhausted).
Proof.
  apply C9_create_failure_frame. vm_compute. discriminate.
Defined.

Lemma C10_empty_code_witness :
  create cycling_env (Some "https://example.org/page") (Some "") 30 crowded_world
  = (Created cycling_env "ABCDEFG" "https://example.org/page" 30,
     mkWorld (links crowded_world
              ++ [new_link "ABCDEFG" "https://example.org/page" 30]) 7)
  /\ String.length "ABCDEFG" = 7%nat.
Proof.
  assert (Ht : valid_target cycling_env "https://example.org/page")
    by (split; [discriminate | reflexivity]).
  pose proof (C10_empty_code cycling_env "https://example.org/page" 30 crowded_world
                cycling_env_in_unit Ht) as (_ & _ & _ & Hgen).
  apply (Hgen 0%nat).
  - unfold maxAttempts. lia.
  - intros j Hj. lia.
  - reflexivity.
Defined.

(** C6, as the specification states it, fails: a negative limit is passed
    on as it is, below the range 1 to 100. *)
Lemma C6_list_limit_counterexample :
  list_limit (Some "-5") = Num (-5) /\ ~ (1 <= -5 <= 100).
Proof. split; [reflexivity | lia]. Qed.

(** C7, as the specification states it, fails: a negative offset is passed
    on as it is, not as 0. *)
Lemma C7_list_offset_counterexample :
  list_offset (Some "-3") = Num (-3) /\ Num (-3) <> Num 0 /\ -3 < 0.
Proof. split; [reflexivity | split; [discriminate | lia]]. Qed.

(** The list route with such a parameter: the store refuses the statement
    and the route answers with a server error. *)
Example list_negative_limit :
  list_links cycling_env (Some "-5") None crowded_world = (ServerError, crowded_world).
Proof. reflexivity. Qed.

Example list_default_page :
  fst (list_links cycling_env None (Some "abc") crowded_world)
  = mkResponse 200
      (JsonList 2
         [link_object cycling_env (mkLink "docs2024" "https://example.org/docs" 0 11 None);
          link_object cycling_env (mkLink "AAAAAAA" "https://example.org/a" 3 10 (Some 20))]).
Proof. reflexivity. Qed.

(* ------------------------------------------------------------------------- *)
(** ** The delete route *)
(* ------------------------------------------------------------------------- *)

Lemma filter_head_true {A : Type} (p : A -> bool) (ls : list A) (a : A) (rest : list A) :
  filter p ls = a :: rest -> p a = true.
Proof.
  intros H. assert (Hin : In a (filter p ls)) by (rewrite H; now left).
  now apply filter_In in Hin.
Qed.

Lemma taken_filter (c : string) (w : world) :
  taken c w = negb (length (filter (has_code c) (links w)) =? 0)%nat.
Proof. unfold taken. now rewrite filter_none, negb_involutive. Qed.

Lemma delete_response (c : string) (w : world) :
  fst (delete c w)
  = if taken c w then mkResponse 200 (JsonDeleted c) else NotFound.
Proof.
  rewrite taken_filter.
  unfold delete, bind, delete_link, rowCount. cbn [rows].
  destruct (filter (has_code c) (links w)) as [|l ls] eqn:E; [reflexivity|].
  cbn. apply filter_head_true in E. apply has_code_eq in E. now rewrite E.
Qed.

Lemma filter_keeps_all {A : Type} (p : A -> bool) (ls : list A) :
  existsb p ls = false -> filter (fun a => negb (p a)) ls = ls.
Proof.
  induction ls as [|a ls IH]; cbn; [reflexivity|].
  destruct (p a); cbn; [discriminate|]. intros H. now rewrite IH.
Qed.

Lemma delete_calls (c : string) (w : world) :
  random_calls (snd (delete c w)) = random_calls w.
Proof.
  unfold delete, bind, delete_link, rowCount. cbn [rows].
  destruct (filter (has_code c) (links w)) as [|l ls]; reflexivity.
Qed.

Lemma delete_missing (c : string) (w : world) :
  taken c w = false -> delete c w = (NotFound, w).
Proof.
  intros H. rewrite (surjective_pairing (delete c w)), delete_response, H.
  f_equal. rewrite <- (world_eta (snd (delete c w))).
  rewrite delete_rows, delete_calls, (filter_keeps_all _ _ H). apply world_eta.
Qed.

Lemma delete_frees (c : string) (w : world) : taken c (snd (delete c w)) = false.
Proof.
  unfold taken. rewrite delete_rows.
  induction (links w) as [|l ls IH]; cbn; [reflexivity|].
  destruct (has_code c l) eqn:E; cbn; [exact IH | now rewrite E].
Qed.

(** X1: Deleting a stored code answers 200 with that code; deleting an
    unknown code answers 404 and changes nothing.  After a delete the code
    is gone: the metadata route, the redirect route and a second delete all
    answer 404 for it and leave the store as it is. *)
Theorem delete_removes_code (c : string) (w : world) :
  (taken c w = true -> fst (delete c w) = mkResponse 200 (JsonDeleted c))
  /\ (taken c w = false -> delete c w = (NotFound, w))
  /\ taken c (snd (delete c w)) = false
  /\ (forall env,
        getMetadata env c (snd (delete c w)) = (NotFound, snd (delete c w)))
  /\ (forall test now,
        resolveAndRecordVisit c test now (snd (delete c w))
        = (NotFoundText, snd (delete c w)))
  /\ delete c (snd (delete c w)) = (NotFound, snd (delete c w)).
Proof.
  pose proof (delete_frees c w) as Hfree.
  assert (Hnone : lookup c (snd (delete c w)) = None) by now apply lookup_none_taken.
  split; [|split; [|split; [|split; [|split]]]].
  - intros H. now rewrite delete_response, H.
  - apply delete_missing.
  - exact Hfree.
  - intros env. rewrite (surjective_pairing (getMetadata _ _ _)).
    now rewrite getMetadata_world, getMetadata_response, Hnone.
  - intros test now. now apply visit_not_found.
  - now apply delete_missing.
Qed.

Lemma find_filter_other (c c' : string) (ls : list Link) :
  c' <> c ->
  find (has_code c') (filter (fun l => negb (has_code c l)) ls)
  = find (has_code c') ls.
Proof.
  intros Hne. induction ls as [|l ls IH]; cbn; [reflexivity|].
  destruct (has_code c l) eqn:Ec; cbn.
  - destruct (has_code c' l) eqn:Ec'; [|exact IH].
    apply has_code_eq in Ec, Ec'. congruence.
  - now rewrite IH.
Qed.

(** X2: A delete touches the rows of its code only: every other code is
    found as before, the rows that stay are the rows with another code,
    each exactly as it was, and no call of [Math.random()] is made. *)
Theorem delete_keeps_other_codes (c : string) (w : world) :
  (forall c', c' <> c -> lookup c' (snd (delete c w)) = lookup c' w)
  /\ (forall l, In l (links (snd (delete c w))) <-> In l (links w) /\ code l <> c)
  /\ random_calls (snd (delete c w)) = random_calls w.
Proof.
  split; [|split].
  - intros c' Hne. unfold lookup. rewrite delete_rows.
    now apply find_filter_other.
  - intros l. rewrite delete_rows, filter_In.
    assert (negb (has_code c l) = true <-> code l <> c); [|tauto].
    rewrite negb_true_iff, <- not_true_iff_false, has_code_eq. tauto.
  - apply delete_calls.
Qed.

(* ------------------------------------------------------------------------- *)
(** ** Create, read, delete *)
(* ------------------------------------------------------------------------- *)

Lemma find_app_found {A : Type} (p : A -> bool) (l1 l2 : list A) (a : A) :
  find p l1 = Some a -> find p (l1 ++ l2) = Some a.
Proof.
  induction l1 as [|b l1 IH]; cbn; [discriminate|].
  destruct (p b); [trivial | exact IH].
Qed.

Lemma filter_drops_last (c : string) (ls : list Link) (l : Link) :
  existsb (has_code c) ls = false -> code l = c ->
  filter (fun x => negb (has_code c x)) (ls ++ [l]) = ls.
Proof.
  intros Hfree Hl. rewrite filter_app, (filter_keeps_all _ _ Hfree). cbn.
  rewrite (proj2 (has_code_eq c l) Hl). cbn. apply app_nil_r.
Qed.

(** X3: A create with a valid target and a free requested code that passes
    [CODE_RE] can be read back: the metadata route then answers 200 with a
    link that has this code and this target, under the short URL of the
    code.  Deleting the code afterwards gives back the rows the store had
    before the create. *)
Theorem create_read_delete (env : Env) (t c : string) (now : timestamp) (w : world) :
  valid_target env t -> RegExp_test CODE_RE (Some c) = true -> taken c w = false ->
  (exists l,
     getMetadata env c (snd (create env (Some t) (Some c) now w))
     = (mkResponse 200 (JsonLink (mkLinkObject l (resolvedBaseUrl env ++ "/" ++ c))),
        snd (create env (Some t) (Some c) now w))
     /\ code l = c /\ target l = t)
  /\ links (snd (delete c (snd (create env (Some t) (Some c) now w)))) = links w.
Proof.
  intros Ht Hre Hfree.
  rewrite (create_requested env t c now w Ht (CODE_RE_nonempty c Hre)).
  rewrite Hre, Hfree. cbn [negb snd]. split.
  - exists (new_link c t now). repeat split.
    rewrite (surjective_pairing (getMetadata _ _ _)).
    rewrite getMetadata_world, getMetadata_response. f_equal.
    unfold lookup. cbn [links]. rewrite find_app.
    + cbn [find]. unfold has_code, new_link. cbn [code].
      now rewrite String.eqb_refl.
    + now apply lookup_none_taken.
  - rewrite delete_rows. cbn [links]. now apply filter_drops_last.
Qed.

(** X4: Whatever it is called with, create leaves every link of the store
    as it is: a code that is found before the call is found after it, with
    the same row, and the metadata route answers for it as before. *)
Theorem create_keeps_links (env : Env) (target code : value) (now : timestamp)
  (w : world) (c' : string) (l : Link) :
  lookup c' w = Some l ->
  lookup c' (snd (create env target code now w)) = Some l
  /\ fst (getMetadata env c' (snd (create env target code now w)))
     = fst (getMetadata env c' w).
Proof.
  intros Hl.
  assert (H : lookup c' (snd (create env target code now w)) = Some l).
  { unfold lookup in *.
    destruct (create_outcomes env target code now w); cbn [links]; try assumption.
    now apply find_app_found. }
  split; [exact H|]. now rewrite !getMetadata_response, H, Hl.
Qed.

(* ------------------------------------------------------------------------- *)
(** ** Repeated visits *)
(* ------------------------------------------------------------------------- *)

Lemma visit_lookup (c c' : string) (test : value) (now : timestamp) (w : world) :
  lookup c' (snd (resolveAndRecordVisit c test now w))
  = option_map (clicked c now) (lookup c' w).
Proof.
  rewrite visit_world. unfold lookup.
  change (links (snd (update_click c now w))) with (map (clicked c now) (links w)).
  apply find_map_stable. intros l. unfold clicked, has_code.
  now destruct (String.eqb (code l) c).
Qed.

Lemma last_cons {A : Type} (a d : A) (ls : list A) : last (a :: ls) d = last ls a.
Proof.
  revert a d; induction ls as [|b ls IH]; intros a d; [reflexivity|].
  change (last (a :: b :: ls) d) with (last (b :: ls) d). now rewrite !IH.
Qed.

(** X5: Visits add up.  After [n] calls of the redirect route for a stored
    code, one after the other, the link has its former [clicks] plus [n],
    its [last_clicked] is the time of the last call, and its code, target
    and [created_at] are as before; links with another code are found
    unchanged and the number of rows is the same. *)
Theorem visits_add_up (c : string) (test : value) (nows : list timestamp) :
  forall (w : world) (l : Link),
    lookup c w = Some l ->
    lookup c (visits c test nows w)
    = Some (mkLink (code l) (target l) (clicks l + Z.of_nat (length nows))
              (created_at l) (last (map Some nows) (last_clicked l)))
    /\ (forall c', c' <> c -> lookup c' (visits c test nows w) = lookup c' w)
    /\ length (links (visits c test nows w)) = length (links w).
Proof.
  induction nows as [|now rest IH]; intros w l Hl; cbn [visits].
  - cbn. rewrite Z.add_0_r. repeat split. rewrite Hl. now destruct l.
  - assert (Hstep : lookup c (snd (resolveAndRecordVisit c test now w))
                    = Some (click now l)).
    { rewrite visit_lookup, Hl. cbn [option_map]. unfold clicked.
      unfold lookup in Hl. now rewrite (proj2 (find_some _ _ Hl)). }
    destruct (IH _ _ Hstep) as (Hc & Hother & Hlen).
    split; [|split].
    + rewrite Hc. cbn [click code target clicks created_at last_clicked map].
      rewrite last_cons. do 2 f_equal. cbn [length]. lia.
    + intros c' Hne. rewrite (Hother c' Hne), visit_lookup.
      destruct (lookup c' w) as [l'|] eqn:E; [|reflexivity].
      cbn [option_map]. unfold clicked.
      destruct (has_code c l') eqn:Ec; [|reflexivity].
      apply has_code_eq in Ec. unfold lookup in E.
      pose proof (proj2 (find_some _ _ E)) as Ec'. apply has_code_eq in Ec'.
      congruence.
    + rewrite Hlen, visit_world.
      change (links (snd (update_click c now w))) with (map (clicked c now) (links w)).
      apply length_map.
Qed.

(** X6: The [test] parameter of the redirect route changes the answer only.
    For a stored code the store is updated in the same way whatever the
    parameter is; the answer is 200 with the target as JSON when the
    parameter is the string "1", and a 302 redirect to the target for every
    other value and when it is absent. *)
Theorem visit_test_flag (c : string) (test : value) (now : timestamp) (w : world)
  (l : Link) :
  lookup c w = Some l ->
  snd (resolveAndRecordVisit c test now w) = snd (resolveAndRecordVisit c None now w)
  /\ (test = Some "1" ->
      fst (resolveAndRecordVisit c test now w)
      = mkResponse 200 (JsonClick "click updated" (target l)))
  /\ (test <> Some "1" ->
      fst (resolveAndRecordVisit c test now w)
      = mkResponse 302 (Location (target l))).
Proof.
  unfold lookup. rewrite find_head_filter. intros Hl.
  split; [now rewrite !visit_world|].
  unfold resolveAndRecordVisit, bind, update_click, rowCount. cbn [rows].
  destruct (filter (has_code c) (links w)) as [|l0 ls]; [discriminate|].
  injection Hl as ->. cbn [map length Nat.eqb].
  split.
  - now intros ->.
  - intros Hne.
    destruct test as [[|[[] [] [] [] [] [] [] []] [|b s]]|];
      first [reflexivity | now contradiction Hne].
Qed.

(* ------------------------------------------------------------------------- *)
(** ** Invariants of the store *)
(* ------------------------------------------------------------------------- *)

(** The rows create leaves: the rows it found, or those and one new row
    whose code was free. *)
Lemma create_rows (env : Env) (target code : value) (now : timestamp) (w : world) :
  links (snd (create env target code now w)) = links w
  \/ exists c t,
       links (snd (create env target code now w)) = (links w ++ [new_link c t now])%list
       /\ taken c w = false
       /\ (random_in_unit env -> strict_code c = true).
Proof.
  destruct target as [[|t0 t']|]; [now left | | now left].
  destruct (isWebUri env (String t0 t')) eqn:Hweb.
  2:{ left. unfold create. now rewrite Hweb. }
  assert (Ht : valid_target env (String t0 t')) by (split; [discriminate | assumption]).
  destruct (truthy code) eqn:Hcode.
  - destruct code as [[|c0 c']|]; try discriminate Hcode.
    rewrite (create_requested env _ (String c0 c') now w Ht) by discriminate.
    destruct (RegExp_test CODE_RE _) eqn:Hre; cbn [negb]; [|now left].
    destruct (taken _ w) eqn:E; [now left|].
    right. exists (String c0 c'), (String t0 t'). repeat split; [assumption|].
    intros _. now rewrite <- CODE_RE_test_strict.
  - destruct (first_failure (fun k => taken (candidate env w k) w) maxAttempts)
      as [(k & Hk & Hfree & Hbefore) | Hall].
    + rewrite (create_first_free env _ code now w k Ht Hcode Hk Hbefore Hfree).
      right. exists (candidate env w k), (String t0 t'). repeat split; [assumption|].
      intros Hr. now apply candidate_strict.
    + rewrite (create_all_taken env _ code now w Ht Hcode Hall). now left.
Qed.

Lemma free_code_not_stored (c : string) (ls : list Link) :
  existsb (has_code c) ls = false -> ~ In c (map code ls).
Proof.
  intros Hfree Hin. apply in_map_iff in Hin as (l & Hc & Hl).
  assert (existsb (has_code c) ls = true); [|congruence].
  apply existsb_exists. exists l. split; [assumption | now apply has_code_eq].
Qed.

Lemma NoDup_map_filter {A B : Type} (f : A -> B) (p : A -> bool) (ls : list A) :
  NoDup (map f ls) -> NoDup (map f (filter p ls)).
Proof.
  induction ls as [|a ls IH]; cbn; [trivial|].
  intros H. apply NoDup_cons_iff in H as [Hnotin Hnd].
  destruct (p a); cbn; [|now apply IH].
  constructor; [|now apply IH].
  intros Hin. apply Hnotin. apply in_map_iff in Hin as (x & Hx & Hin).
  apply in_map_iff. exists x. split; [assumption|]. now apply filter_In in Hin.
Qed.

Lemma visit_codes (c : string) (test : value) (now : timestamp) (w : world) :
  map code (links (snd (resolveAndRecordVisit c test now w))) = map code (links w).
Proof.
  rewrite visit_world.
  change (links (snd (update_click c now w))) with (map (clicked c now) (links w)).
  rewrite map_map. apply map_ext. intros l. unfold clicked.
  now destruct (has_code c l).
Qed.

Lemma NoDup_one_row (c : string) (ls : list Link) :
  NoDup (map code ls) -> (length (filter (has_code c) ls) <= 1)%nat.
Proof.
  induction ls as [|l ls IH]; cbn; [lia|].
  intros H. apply NoDup_cons_iff in H as [Hnotin Hnd].
  destruct (has_code c l) eqn:E; [|now apply IH].
  apply has_code_eq in E. subst c. cbn.
  assert (Hnone : filter (has_code (code l)) ls = []); [|rewrite Hnone; cbn; lia].
  destruct (filter (has_code (code l)) ls) as [|x xs] eqn:F; [reflexivity|].
  exfalso. apply Hnotin. apply in_map_iff. exists x.
  assert (Hin : In x (filter (has_code (code l)) ls)) by (rewrite F; now left).
  apply filter_In in Hin as [Hin Hx]. apply has_code_eq in Hx. now split.
Qed.

(** X7: Codes stay unique.  When no two rows of the store share a code,
    the same holds after a create (whatever it is called with), after a
    visit and after a delete, and every statement with [WHERE code = $1]
    finds at most one row. *)
Theorem unique_codes_kept (env : Env) (w : world) :
  unique_codes w ->
  (forall target code now, unique_codes (snd (create env target code now w)))
  /\ (forall c test now, unique_codes (snd (resolveAndRecordVisit c test now w)))
  /\ (forall c, unique_codes (snd (delete c w)))
  /\ (forall c, (length (filter (has_code c) (links w)) <= 1)%nat).
Proof.
  unfold unique_codes. intros Hu. split; [|split; [|split]].
  - intros tg cd now.
    destruct (create_rows env tg cd now w) as [-> | (c & t & -> & Hfree & _)];
      [assumption|].
    rewrite map_app. apply NoDup_app; [assumption | repeat constructor; intros [] |].
    intros a Ha [<- | []]. cbn [code new_link] in Ha.
    now apply (free_code_not_stored _ _ Hfree).
  - intros c test now. now rewrite visit_codes.
  - intros c. rewrite delete_rows. now apply NoDup_map_filter.
  - intros c. now apply NoDup_one_row.
Qed.

(** X8: Stored codes stay well formed.  When every code of the store is
    alphanumeric and 6 to 8 characters long, the same holds after a create
    (whatever it is called with), after a visit and after a delete: what
    create stores is a requested code that passed [CODE_RE] or a generated
    code of 7 characters of the alphabet. *)
Theorem strict_codes_kept (env : Env) (w : world) :
  random_in_unit env -> strict_codes w ->
  (forall target code now, strict_codes (snd (create env target code now w)))
  /\ (forall c test now, strict_codes (snd (resolveAndRecordVisit c test now w)))
  /\ (forall c, strict_codes (snd (delete c w))).
Proof.
  unfold strict_codes. intros Hr Hs. split; [|split].
  - intros tg cd now.
    destruct (create_rows env tg cd now w) as [-> | (c & t & -> & _ & Hc)];
      [assumption|].
    apply Forall_app. split; [assumption|]. constructor; [|constructor].
    cbn [code new_link]. now apply Hc.
  - intros c test now. rewrite visit_world.
    change (links (snd (update_click c now w))) with (map (clicked c now) (links w)).
    apply Forall_map. apply (Forall_impl _ (P := fun l => strict_code (code l) = true));
      [|assumption].
    intros l Hl. unfold clicked. now destruct (has_code c l).
  - intros c. rewrite delete_rows.
    apply Forall_forall. intros l Hl. apply filter_In in Hl as [Hl _].
    revert l Hl. now apply Forall_forall.
Qed.

(* ------------------------------------------------------------------------- *)
(** ** [genCode] for any length *)
(* ------------------------------------------------------------------------- *)

Lemma string_forall_alphabet (s : string) :
  string_forall (fun c => string_mem c chars) s = true ->
  string_forall is_alnum s = true.
Proof.
  induction s as [|c s IH]; cbn [string_forall]; [reflexivity|].
  intros [Hc Hs]%andb_true_iff.
  now rewrite (string_forall_mem _ _ _ chars_alnum Hc), IH.
Qed.

(** X9: [genCode(len)] returns exactly [len] letters and digits and makes
    exactly [len] calls of [Math.random()], leaving the rows alone.  Its
    result passes [CODE_RE] exactly when [len] is 6, 7 or 8. *)
Theorem genCode_any_length (env : Env) (len : nat) (w : world) :
  random_in_unit env ->
  snd (genCode env len w) = mkWorld (links w) (random_calls w + len)
  /\ String.length (fst (genCode env len w)) = len
  /\ string_forall is_alnum (fst (genCode env len w)) = true
  /\ RegExp_test CODE_RE (Some (fst (genCode env len w)))
     = ((6 <=? len)%nat && (len <=? 8)%nat).
Proof.
  intros Hr. unfold genCode.
  destruct (genCode_loop_alphabet env len EmptyString w Hr) as (s & Hs & Hl & Ha).
  rewrite genCode_loop_world, Hs. cbn [append].
  apply string_forall_alphabet in Ha.
  repeat split; try assumption.
  rewrite CODE_RE_test_strict. unfold strict_code. rewrite Hl, Ha.
  apply andb_true_r.
Qed.

(* ------------------------------------------------------------------------- *)
(** ** The list route *)
(* ------------------------------------------------------------------------- *)

Lemma insert_desc_perm (l : Link) (ls : list Link) :
  Permutation (insert_desc l ls) (l :: ls).
Proof.
  induction ls as [|x ls IH]; cbn; [reflexivity|].
  destruct (created_at x <? created_at l); [reflexivity|].
  rewrite IH. apply perm_swap.
Qed.

Lemma order_perm (ls : list Link) : Permutation (order_by_created_at_desc ls) ls.
Proof.
  induction ls as [|l ls IH]; cbn; [reflexivity|].
  rewrite insert_desc_perm. now constructor.
Qed.

Lemma insert_desc_sorted (l : Link) (ls : list Link) :
  Sorted newer_or_same ls -> Sorted newer_or_same (insert_desc l ls).
Proof.
  induction ls as [|x ls IH]; cbn; intros Hs.
  - repeat constructor.
  - destruct (Z.ltb_spec (created_at x) (created_at l)) as [Hlt | Hge].
    + constructor; [assumption|]. constructor. unfold newer_or_same. lia.
    + apply Sorted_inv in Hs as [Hs Hhd]. constructor; [now apply IH|].
      destruct ls as [|y ls]; cbn.
      * constructor. exact Hge.
      * destruct (created_at y <? created_at l); constructor;
          [exact Hge | now apply HdRel_inv in Hhd].
Qed.

Lemma order_sorted (ls : list Link) :
  StronglySorted newer_or_same (order_by_created_at_desc ls).
Proof.
  apply Sorted_StronglySorted.
  - intros a b c Hab Hbc. unfold newer_or_same in *. lia.
  - induction ls as [|l ls IH]; cbn; [constructor | now apply insert_desc_sorted].
Qed.




(* ------------------------------------------------------------------------- *)
(** ** The base URL of short links *)
(* ------------------------------------------------------------------------- *)

Lemma match_star_end (cs : char_class) (s : string) :
  match_star cs s (match_atoms []) = string_forall (in_class cs) s.
Proof.
  induction s as [|c s IH]; cbn [match_star string_forall]; [reflexivity|].
  rewrite IH. change (match_atoms [] (String c s)) with false.
  apply orb_false_r.
Qed.

Lemma match_plus_end_forall (cs : char_class) (s : string) :
  match_plus_end cs s
  = match s with
    | EmptyString => false
    | String _ _ => string_forall (in_class cs) s
    end.
Proof.
  unfold match_plus_end. destruct s as [|c s]; cbn [match_exact string_forall];
    [reflexivity|].
  now rewrite match_star_end.
Qed.

Lemma in_class_slash (c : ascii) :
  in_class [("/", "/")]%char c = true <-> c = "/"%char.
Proof.
  unfold in_class. cbn [existsb fst snd]. rewrite orb_false_r, andb_true_iff.
  rewrite !Nat.leb_le. split.
  - intros [H1 H2]. rewrite <- (ascii_nat_embedding c).
    now replace (nat_of_ascii c) with (nat_of_ascii "/") by lia.
  - intros ->. split; reflexivity.
Qed.

Lemma all_slashes (s : string) :
  string_forall (in_class [("/", "/")]%char) s = true ->
  s = slashes (String.length s).
Proof.
  induction s as [|c s IH]; cbn [string_forall String.length slashes]; [reflexivity|].
  intros [Hc Hs]%andb_true_iff. apply in_class_slash in Hc. now rewrite Hc, <- IH.
Qed.

Lemma slashes_all (k : nat) :
  string_forall (in_class [("/", "/")]%char) (slashes k) = true.
Proof. induction k as [|k IH]; cbn [slashes string_forall]; [reflexivity|]. now rewrite IH. Qed.

Lemma slashes_snoc (k : nat) : slashes k ++ "/" = slashes (S k).
Proof. induction k as [|k IH]; cbn; [reflexivity | now rewrite IH]. Qed.

(** What is removed is a run of slashes, and what is left ends with no
    slash. *)
Lemma replace_trailing_slashes_spec (s : string) :
  (exists k, s = replace_trailing_slashes s ++ slashes k)
  /\ (forall p, replace_trailing_slashes s <> p ++ "/").
Proof.
  induction s as [|c s [(k & Hk) Hend]]; cbn [replace_trailing_slashes].
  - rewrite match_plus_end_forall. split; [now exists 0%nat|].
    intros [|a p]; discriminate.
  - rewrite match_plus_end_forall.
    destruct (string_forall _ (String c s)) eqn:Hall.
    + split; [exists (String.length (String c s)); now apply all_slashes|].
      intros [|a p]; discriminate.
    + split; [exists k; cbn; now rewrite <- Hk|].
      intros [|a p] Hp; cbn in Hp; injection Hp as Hc Hr.
      * rewrite Hr in Hk. cbn in Hk. subst c s.
        cbn [string_forall] in Hall. rewrite slashes_all in Hall.
        now rewrite (proj2 (in_class_slash "/") eq_refl) in Hall.
      * now apply (Hend p).
Qed.

Lemma replace_trailing_slashes_fixed (r : string) :
  (forall p, r <> p ++ "/") -> replace_trailing_slashes r = r.
Proof.
  induction r as [|c r IH]; intros Hend; cbn [replace_trailing_slashes];
    rewrite match_plus_end_forall; [reflexivity|].
  destruct (string_forall _ (String c r)) eqn:Hall.
  - exfalso. apply all_slashes in Hall. cbn [String.length] in Hall.
    rewrite <- slashes_snoc in Hall. now apply (Hend _ Hall).
  - f_equal. apply IH. intros p Hp. apply (Hend (String c p)). cbn. now rewrite Hp.
Qed.

(** X11: When [BASE_URL] is set, the base URL of the short links is
    [BASE_URL] without the slashes at its end: what is cut off is a run of
    slashes and nothing else, the result ends with no slash (so base, "/"
    and code are joined by exactly one slash), a value that ends with no
    slash is taken as it is, and cutting again changes nothing.  When
    [BASE_URL] is missing or empty the base is http://localhost: followed
    by the port, which is 3000 when [PORT] is missing or empty. *)
Theorem base_url_without_trailing_slashes (show : number -> string)
  (b : string) (PORT : value) :
  b <> "" ->
  (exists k, b = resolvedBaseUrl_of show (Some b) PORT ++ slashes k)
  /\ (forall p, resolvedBaseUrl_of show (Some b) PORT <> p ++ "/")
  /\ ((forall p, b <> p ++ "/") -> resolvedBaseUrl_of show (Some b) PORT = b)
  /\ replace_trailing_slashes (resolvedBaseUrl_of show (Some b) PORT)
     = resolvedBaseUrl_of show (Some b) PORT
  /\ resolvedBaseUrl_of show None PORT = resolvedBaseUrl_of show (Some "") PORT
  /\ (truthy PORT = false ->
      resolvedBaseUrl_of show None PORT = "http://localhost:" ++ show (Num 3000)).
Proof.
  intros Hb. unfold resolvedBaseUrl_of at 1 2 3 4 5.
  destruct b as [|c b]; [contradiction|]. cbn [truthy ToString].
  destruct (replace_trailing_slashes_spec (String c b)) as [Hcut Hend].
  split; [exact Hcut|]. split; [exact Hend|].
  split; [apply replace_trailing_slashes_fixed|].
  split; [|split].
  - now apply replace_trailing_slashes_fixed.
  - reflexivity.
  - intros HP. unfold resolvedBaseUrl_of, LISTEN_PORT. cbn [truthy]. now rewrite HP.
Qed.

(* ------------------------------------------------------------------------- *)
(** ** The admin page and the create route *)
(* ------------------------------------------------------------------------- *)

Lemma in_class_custom (c : ascii) :
  in_class AdminPage.custom_code_class c = custom_char c.
Proof. destruct c as [[] [] [] [] [] [] [] []]; reflexivity. Qed.

Lemma custom_char_not_space (c : ascii) :
  custom_char c = true -> is_white_space c = false.
Proof. destruct c as [[] [] [] [] [] [] [] []]; (reflexivity || discriminate). Qed.

Lemma custom_char_cases (c : ascii) :
  custom_char c = true -> is_alnum c = false -> c = "-"%char \/ c = "_"%char.
Proof.
  unfold custom_char. intros H Ha. rewrite Ha in H. cbn [orb] in H.
  apply orb_true_iff in H as [H | H]; apply Ascii.eqb_eq in H; auto.
Qed.

Lemma trim_start_fixed (s : string) :
  string_forall custom_char s = true -> trim_start s = s.
Proof.
  destruct s as [|c s]; cbn [string_forall trim_start]; [reflexivity|].
  intros [Hc _]%andb_true_iff. now rewrite (custom_char_not_space c Hc).
Qed.

Lemma trim_end_fixed (s : string) :
  string_forall custom_char s = true -> AdminPage.trim_end s = s.
Proof.
  induction s as [|c s IH]; cbn [string_forall AdminPage.trim_end]; [reflexivity|].
  intros [Hc Hs]%andb_true_iff. rewrite (IH Hs).
  destruct s; [now rewrite (custom_char_not_space c Hc) | reflexivity].
Qed.

Lemma trim_fixed (s : string) :
  string_forall custom_char s = true -> AdminPage.trim s = s.
Proof.
  intros H. unfold AdminPage.trim. rewrite (trim_start_fixed s H).
  now apply trim_end_fixed.
Qed.

(** The check of [validateCustomCode], on a text that is not empty. *)
Lemma validateCustomCode_cases (s : string) :
  s <> "" ->
  AdminPage.validateCustomCode s
  = if (String.length (AdminPage.trim s) <? 4)%nat
       || (12 <? String.length (AdminPage.trim s))%nat
    then AdminPage.mkValidation false (Some AdminPage.MustBe4To12Characters) None
    else if string_forall custom_char (AdminPage.trim s)
    then AdminPage.mkValidation true None (Some (AdminPage.trim s))
    else AdminPage.mkValidation false
           (Some AdminPage.OnlyLettersNumbersHyphenUnderscore) None.
Proof.
  intros Hs. unfold AdminPage.validateCustomCode.
  destruct s as [|a s]; [contradiction|]. cbn [truthy negb].
  destruct (_ || _) eqn:Hlen; [reflexivity|].
  rewrite match_plus_end_forall.
  rewrite (string_forall_ext _ _ _ in_class_custom).
  destruct (AdminPage.trim (String a s)) as [|b r] eqn:Ht.
  - discriminate Hlen.
  - now destruct (string_forall custom_char (String b r)).
Qed.

(** The code of an accepted text. *)
Lemma validateCustomCode_accepted (s : string) :
  s <> "" -> AdminPage.ok (AdminPage.validateCustomCode s) = true ->
  AdminPage.code (AdminPage.validateCustomCode s) = Some (AdminPage.trim s)
  /\ (4 <= String.length (AdminPage.trim s) <= 12)%nat
  /\ string_forall custom_char (AdminPage.trim s) = true.
Proof.
  intros Hs. rewrite (validateCustomCode_cases s Hs).
  destruct (Nat.ltb_spec (String.length (AdminPage.trim s)) 4);
    cbn [orb AdminPage.ok]; [discriminate|].
  destruct (Nat.ltb_spec 12 (String.length (AdminPage.trim s)));
    cbn [AdminPage.ok]; [discriminate|].
  destruct (string_forall custom_char (AdminPage.trim s)) eqn:Hc;
    cbn [AdminPage.ok AdminPage.code]; [|discriminate].
  intros _. repeat split; assumption.
Qed.

(** X12: [validateCustomCode] on the text of the code field.  An empty
    text is accepted with no code.  A text that is accepted otherwise
    yields the text without the white space at its ends as the code: 4 to
    12 characters, each a letter, a digit, a hyphen or an underscore, and
    validating that code again accepts it unchanged.  A text of white
    space only is not taken as empty: it is refused for its length. *)
Theorem validateCustomCode_result (s : string) :
  AdminPage.validateCustomCode "" = AdminPage.mkValidation true None None
  /\ (s <> "" -> AdminPage.ok (AdminPage.validateCustomCode s) = true ->
      AdminPage.code (AdminPage.validateCustomCode s) = Some (AdminPage.trim s)
      /\ (4 <= String.length (AdminPage.trim s) <= 12)%nat
      /\ string_forall custom_char (AdminPage.trim s) = true
      /\ AdminPage.validateCustomCode (AdminPage.trim s)
         = AdminPage.validateCustomCode s)
  /\ (s <> "" -> AdminPage.ok (AdminPage.validateCustomCode s) = false ->
      AdminPage.code (AdminPage.validateCustomCode s) = None
      /\ AdminPage.msg (AdminPage.validateCustomCode s) <> None)
  /\ (s <> "" -> AdminPage.trim s = "" ->
      AdminPage.validateCustomCode s
      = AdminPage.mkValidation false (Some AdminPage.MustBe4To12Characters) None).
Proof.
  split; [reflexivity|]. split; [|split].
  - intros Hs. rewrite (validateCustomCode_cases s Hs).
    destruct (Nat.ltb_spec (String.length (AdminPage.trim s)) 4);
      cbn [orb AdminPage.ok]; [discriminate|].
    destruct (Nat.ltb_spec 12 (String.length (AdminPage.trim s)));
      cbn [AdminPage.ok]; [discriminate|].
    destruct (string_forall custom_char (AdminPage.trim s)) eqn:Hc;
      cbn [AdminPage.ok AdminPage.code]; [|discriminate].
    intros _. repeat split; try assumption.
    assert (Hne : AdminPage.trim s <> "").
    { intros E. rewrite E in *. cbn in *. lia. }
    rewrite (validateCustomCode_cases _ Hne), (trim_fixed _ Hc), Hc.
    destruct (Nat.ltb_spec (String.length (AdminPage.trim s)) 4); [lia|].
    destruct (Nat.ltb_spec 12 (String.length (AdminPage.trim s))); [lia|].
    reflexivity.
  - intros Hs. rewrite (validateCustomCode_cases s Hs).
    destruct (_ || _); cbn [AdminPage.ok AdminPage.code AdminPage.msg];
      [intros _; split; [reflexivity | discriminate]|].
    destruct (string_forall custom_char (AdminPage.trim s));
      cbn [AdminPage.ok AdminPage.code AdminPage.msg]; [discriminate|].
    intros _; split; [reflexivity | discriminate].
  - intros Hs Ht. rewrite (validateCustomCode_cases s Hs), Ht. reflexivity.
Qed.

Lemma not_alnum_member (c : string) :
  string_forall custom_char c = true -> string_forall is_alnum c = false ->
  string_mem "-" c = true \/ string_mem "_" c = true.
Proof.
  induction c as [|a c IH]; cbn [string_forall string_mem]; [discriminate|].
  intros [Ha Hc]%andb_true_iff H.
  destruct (is_alnum a) eqn:Ea; cbn [andb] in H.
  - destruct (IH Hc H) as [Hm | Hm]; rewrite Hm, orb_true_r; auto.
  - destruct (custom_char_cases a Ha Ea) as [-> | ->]; cbn; auto.
Qed.

Lemma alnum_custom (c : string) :
  string_forall is_alnum c = true -> string_forall custom_char c = true.
Proof.
  induction c as [|a c IH]; cbn [string_forall]; [reflexivity|].
  intros [Ha Hc]%andb_true_iff. unfold custom_char at 1. now rewrite Ha, IH.
Qed.

(** X13: The page and the server disagree on codes in a definite way.  A
    code that [validateCustomCode] accepts is refused by the create route
    with InvalidCode (given a valid target) exactly when it has fewer than
    6 or more than 8 characters or holds a hyphen or an underscore; every
    other accepted code passes the server's pattern. *)
Theorem page_code_at_server (env : Env) (s t c : string) (now : timestamp)
  (w : world) :
  valid_target env t ->
  AdminPage.ok (AdminPage.validateCustomCode s) = true ->
  AdminPage.code (AdminPage.validateCustomCode s) = Some c ->
  (fst (create env (Some t) (Some c) now w) = InvalidCode
   <-> (String.length c < 6)%nat \/ (8 < String.length c)%nat
       \/ string_mem "-" c = true \/ string_mem "_" c = true).
Proof.
  intros Ht Hok Hcode.
  assert (Hs : s <> "") by (intros ->; discriminate Hcode).
  destruct (validateCustomCode_accepted s Hs Hok) as (Hc & Hlen & Hchars).
  rewrite Hc in Hcode. injection Hcode as <-.
  assert (Hne : AdminPage.trim s <> "").
  { intros E. rewrite E in Hlen. cbn in Hlen. lia. }
  rewrite (create_requested env t _ now w Ht Hne), CODE_RE_test_strict.
  generalize dependent (AdminPage.trim s). intros c Hlen Hchars Hne.
  destruct (strict_code c) eqn:Hstrict; cbn [negb fst].
  - split.
    + destruct (taken c w); discriminate.
    + unfold strict_code in Hstrict.
      apply andb_true_iff in Hstrict as [[H6 H8]%andb_true_iff Hal].
      apply Nat.leb_le in H6, H8.
      intros [H | [H | [H | H]]]; try lia.
      * pose proof (string_forall_mem _ _ _ Hal H) as X. discriminate X.
      * pose proof (string_forall_mem _ _ _ Hal H) as X. discriminate X.
  - split; [|reflexivity]. intros _. unfold strict_code in Hstrict.
    destruct (Nat.leb_spec 6 (String.length c)); [|now left].
    destruct (Nat.leb_spec (String.length c) 8); [|now right; left].
    cbn [andb] in Hstrict. right. right. now apply not_alnum_member.
Qed.

(** With a target that is not empty the create route does not ask for one. *)
Lemma create_target_given (env : Env) (t : string) (c : value) (now : timestamp)
  (w : world) :
  t <> "" -> fst (create env (Some t) c now w) <> TargetRequired.
Proof.
  intros Hne. destruct (isWebUri env t) eqn:Hweb.
  2:{ unfold create. destruct t; [contradiction|]. rewrite Hweb. discriminate. }
  assert (Ht : valid_target env t) by now split.
  destruct (truthy c) eqn:Hc.
  - destruct c as [[|c0 c']|]; try discriminate Hc.
    rewrite (create_requested env t (String c0 c') now w Ht) by discriminate.
    destruct (RegExp_test CODE_RE _); cbn [negb]; [|discriminate].
    destruct (taken _ w); discriminate.
  - destruct (first_failure (fun k => taken (candidate env w k) w) maxAttempts)
      as [(k & Hk & Hfree & Hbefore) | Hall].
    + rewrite (create_first_free env t c now w k Ht Hc Hk Hbefore Hfree).
      discriminate.
    + rewrite (create_all_taken env t c now w Ht Hc Hall). discriminate.
Qed.

(** X14: What the page posts.  [createLink] sends a request only with a
    target that is not empty once the white space at its ends is removed,
    and sends that trimmed target; so the create route never answers
    "target is required" to the page.  An empty code field sends no code; a
    code the server's pattern accepts (with or without white space around
    it) is sent as it is, without the white space. *)
Theorem createLink_posts (env : Env) (target customCode t : string) (c : value)
  (now : timestamp) (w : world) :
  AdminPage.createLink target customCode = AdminPage.Post t c ->
  t = AdminPage.trim target
  /\ t <> ""
  /\ (customCode = "" -> c = None)
  /\ (strict_code (AdminPage.trim customCode) = true ->
      c = Some (AdminPage.trim customCode))
  /\ (forall c', c = Some c' ->
        c' = AdminPage.trim customCode
        /\ (4 <= String.length c' <= 12)%nat
        /\ string_forall custom_char c' = true)
  /\ fst (create env (Some t) c now w) <> TargetRequired.
Proof.
  unfold AdminPage.createLink.
  replace (if truthy (Some target) then target else "") with target
    by now destruct target.
  destruct (AdminPage.trim target) as [|a r] eqn:Ht; cbn [truthy negb]; [discriminate|].
  destruct (AdminPage.ok (AdminPage.validateCustomCode customCode)) eqn:Hok;
    cbn [negb]; [|discriminate].
  intros [= <- <-].
  split; [reflexivity|]. split; [discriminate|].
  pose proof (validateCustomCode_accepted customCode) as Hacc.
  split; [now intros ->|]. split; [|split].
  - intros Hstrict.
    assert (Hs : customCode <> "") by (intros ->; discriminate Hstrict).
    destruct (Hacc Hs Hok) as (-> & _). unfold strict_code in Hstrict.
    destruct (AdminPage.trim customCode); [discriminate Hstrict | reflexivity].
  - intros c'. destruct customCode as [|x xs] eqn:E; [discriminate|].
    destruct (Hacc ltac:(discriminate) Hok) as (-> & Hlen & Hchars).
    destruct (AdminPage.trim (String x xs)) as [|y ys]; cbn [truthy];
      [discriminate|].
    intros [= <-]. repeat split; (assumption || lia).
  - now apply create_target_given.
Qed.

(* ------------------------------------------------------------------------- *)
(** ** The page controls and the list route *)
(* ------------------------------------------------------------------------- *)

Lemma read_digits_acc (d : Decimal.uint) :
  forall acc : positive,
    read_digits (Some (Z.pos acc)) (NilEmpty.string_of_uint d)
    = Some (Z.pos (Pos.of_uint_acc d acc)).
Proof.
  induction d as [|d IH|d IH|d IH|d IH|d IH|d IH|d IH|d IH|d IH|d IH];
    intros acc; cbn [NilEmpty.string_of_uint read_digits Pos.of_uint_acc].
  1: reflexivity.
  all: eval_digit; rewrite <- IH; do 2 f_equal; lia.
Qed.

Lemma read_digits_zero (d : Decimal.uint) :
  read_digits (Some 0) (NilEmpty.string_of_uint d) = Some (Z.of_N (Pos.of_uint d)).
Proof.
  induction d as [|d IH|d|d|d|d|d|d|d|d|d];
    cbn [NilEmpty.string_of_uint read_digits Pos.of_uint].
  1: reflexivity.
  1: eval_digit; exact IH.
  all: eval_digit; cbn [Z.of_N]; rewrite <- read_digits_acc; reflexivity.
Qed.

Lemma parseInt_plain (a : ascii) (r : string) :
  is_white_space a = false -> (a =? "-")%char = false -> (a =? "+")%char = false ->
  parseInt (Some (String a r))
  = match read_digits None (String a r) with
    | Some m => Num m
    | None => NaN
    end
  /\ minus_signed (Some (String a r)) = false.
Proof.
  intros Hw Hm Hp. unfold parseInt, minus_signed. cbn [ToString trim_start].
  rewrite Hw, Hm, Hp. cbn [orb]. split; [|reflexivity].
  destruct (read_digits None (String a r)) as [m|]; [|reflexivity].
  f_equal; lia.
Qed.

Lemma parseInt_minus (r : string) :
  parseInt (Some (String "-" r))
  = match read_digits None r with
    | Some m => Num (- m)
    | None => NaN
    end.
Proof.
  unfold parseInt. cbn [ToString trim_start].
  change (is_white_space "-") with false. cbv iota.
  change ("-" =? "-")%char with true. change ("-" =? "+")%char with false.
  cbn [orb]. destruct (read_digits None r) as [m|]; [|reflexivity].
  f_equal; lia.
Qed.

(** Reading back the digits of a positive number. *)
Lemma parseInt_digits (p : positive) :
  parseInt (Some (NilEmpty.string_of_uint (Pos.to_uint p))) = Num (Z.pos p)
  /\ parseInt (Some (String "-" (NilEmpty.string_of_uint (Pos.to_uint p))))
     = Num (Z.neg p)
  /\ minus_signed (Some (NilEmpty.string_of_uint (Pos.to_uint p))) = false
  /\ NilZero.string_of_uint (Pos.to_uint p) = NilEmpty.string_of_uint (Pos.to_uint p).
Proof.
  pose proof (DecimalPos.Unsigned.of_to p) as Hp.
  pose proof (read_digits_zero (Pos.to_uint p)) as Hz. rewrite Hp in Hz.
  rewrite parseInt_minus.
  destruct (Pos.to_uint p) as [|d|d|d|d|d|d|d|d|d|d].
  1: discriminate Hp.
  all: cbn [NilEmpty.string_of_uint NilZero.string_of_uint] in *.
  all: match goal with
       | |- context [parseInt (Some (String ?c ?r))] =>
           destruct (parseInt_plain c r eq_refl eq_refl eq_refl) as [-> ->];
           change (read_digits None (String c r))
             with (read_digits (Some 0) (String c r));
           rewrite Hz
       end.
  all: repeat split.
Qed.

(** The digits of an integer parse back to it. *)
Lemma parseInt_show_integer (z : Z) :
  parseInt (Some (AdminPage.show_integer z)) = Num z
  /\ (0 <= z -> minus_signed (Some (AdminPage.show_integer z)) = false).
Proof.
  unfold AdminPage.show_integer. destruct z as [|p|p]; cbn [Z.to_int NilZero.string_of_int].
  - split; reflexivity.
  - destruct (parseInt_digits p) as (Hpos & _ & Hm & ->). now split.
  - destruct (parseInt_digits p) as (_ & Hneg & _ & ->). split; [exact Hneg | lia].
Qed.

Lemma offset_after_range (bs : list AdminPage.button) :
  forall o : Z,
    0 <= o -> (20 | o) ->
    0 <= AdminPage.offset_after bs o
    /\ (20 | AdminPage.offset_after bs o)
    /\ AdminPage.offset_after bs o <= o + 20 * Z.of_nat (length bs).
Proof.
  induction bs as [|b bs IH]; intros o Ho Hd; cbn [AdminPage.offset_after length].
  - repeat split; [assumption | assumption | lia].
  - assert (Hp : 0 <= AdminPage.press b o /\ (20 | AdminPage.press b o)
                 /\ AdminPage.press b o <= o + 20).
    { unfold AdminPage.press, AdminPage.page_limit. destruct b.
      - destruct (Z.max_spec 0 (o - 20)) as [[Hlt ->] | [Hge ->]].
        + repeat split; [lia | | lia]. apply Z.divide_sub_r; [assumption|].
          apply Z.divide_refl.
        + repeat split; [lia | apply Z.divide_0_r | lia].
      - repeat split; [lia | | lia]. apply Z.divide_add_r; [assumption|].
        apply Z.divide_refl. }
    destruct Hp as (Hp0 & Hpd & Hpb).
    destruct (IH _ Hp0 Hpd) as (H0 & Hdiv & Hb).
    repeat split; [assumption | assumption | lia].
Qed.

Lemma list_links_at (env : Env) (limit offset : value) (w : world) (z k : Z) :
  list_limit limit = Num z -> list_offset offset = Num k -> 0 <= z -> 0 <= k ->
  list_links env limit offset w
  = (mkResponse 200
       (JsonList
          (length (firstn (Z.to_nat z)
                     (skipn (Z.to_nat k) (order_by_created_at_desc (links w)))))
          (map (link_object env)
             (firstn (Z.to_nat z)
                (skipn (Z.to_nat k) (order_by_created_at_desc (links w)))))),
     w).
Proof.
  intros Hz Hk Hz0 Hk0. unfold list_links, bind, select_page. rewrite Hz, Hk.
  destruct (Z.ltb_spec z 0); [lia|]. destruct (Z.ltb_spec k 0); [lia|].
  cbn [orb rows]. unfold ret. now rewrite length_map.
Qed.

(** X15: The page controls and the list route fit together.  Starting at
    offset 0, after any run of presses of Prev and Next the page's offset
    is a multiple of 20 that is not negative; the [limit] and [offset] the
    page then writes into the URL are read by the list route as 20 and as
    this very offset, and the route answers 200 with the rows
    [offset + 1] to [offset + 20] of the stored rows, newest first.  (The
    run is short enough for the offset to stay an exact Number.) *)
Theorem page_controls_reach_server (bs : list AdminPage.button) :
  Z.of_nat (length bs) * 20 < 2 ^ 53 ->
  0 <= AdminPage.offset_after bs 0 < 2 ^ 53
  /\ (20 | AdminPage.offset_after bs 0)
  /\ list_limit
       (fst (AdminPage.fetchPage_query AdminPage.page_limit
               (AdminPage.offset_after bs 0)))
     = Num 20
  /\ list_offset
       (snd (AdminPage.fetchPage_query AdminPage.page_limit
               (AdminPage.offset_after bs 0)))
     = Num (AdminPage.offset_after bs 0)
  /\ (forall (env : Env) (w : world),
        exists sorted,
          Permutation sorted (links w)
          /\ StronglySorted newer_or_same sorted
          /\ list_links env
               (fst (AdminPage.fetchPage_query AdminPage.page_limit
                       (AdminPage.offset_after bs 0)))
               (snd (AdminPage.fetchPage_query AdminPage.page_limit
                       (AdminPage.offset_after bs 0))) w
             = (mkResponse 200
                  (JsonList
                     (length (firstn 20
                                (skipn (Z.to_nat (AdminPage.offset_after bs 0)) sorted)))
                     (map (link_object env)
                        (firstn 20
                           (skipn (Z.to_nat (AdminPage.offset_after bs 0)) sorted)))),
                w)).
Proof.
  intros Hshort.
  destruct (offset_after_range bs 0 (Z.le_refl 0) (Z.divide_0_r 20)) as (H0 & Hd & Hb).
  set (o := AdminPage.offset_after bs 0) in *.
  assert (Hlimit : list_limit (Some (AdminPage.show_integer 20)) = Num 20)
    by reflexivity.
  assert (Hoffset : list_offset (Some (AdminPage.show_integer o)) = Num o).
  { unfold list_offset. rewrite (proj1 (parseInt_show_integer o)), or_else_number.
    now destruct (Z.eqb_spec o 0) as [->|]. }
  cbn [fst snd AdminPage.fetchPage_query]. unfold AdminPage.page_limit.
  split; [lia|]. split; [exact Hd|]. split; [exact Hlimit|]. split; [exact Hoffset|].
  intros env w. exists (order_by_created_at_desc (links w)).
  split; [apply order_perm|]. split; [apply order_sorted|].
  now rewrite (list_links_at env _ _ w 20 o Hlimit Hoffset) by lia.
Qed.

(* ------------------------------------------------------------------------- *)
(** ** The further statements at sample inputs *)
(* ------------------------------------------------------------------------- *)

Lemma crowded_world_unique : unique_codes crowded_world.
Proof.
  unfold unique_codes. cbn. constructor; [intros [H | []]; discriminate H|].
  constructor; [intros [] | constructor].
Qed.

Lemma crowded_world_strict : strict_codes crowded_world.
Proof. unfold strict_codes. cbn. repeat constructor. Qed.

Lemma create_read_delete_witness :
  links (snd (delete "launch7"
                (snd (create cycling_env (Some "https://example.org/page")
                        (Some "launch7") 30 crowded_world))))
  = links crowded_world.
Proof.
  apply (create_read_delete cycling_env "https://example.org/page" "launch7" 30
           crowded_world).
  - split; [discriminate | reflexivity].
  - reflexivity.
  - reflexivity.
Defined.

Lemma create_keeps_links_witness :
  lookup "docs2024"
    (snd (create cycling_env (Some "https://example.org/page") None 30 crowded_world))
  = Some (mkLink "docs2024" "https://example.org/docs" 0 11 None).
Proof.
  apply (create_keeps_links cycling_env (Some "https://example.org/page") None 30
           crowded_world "docs2024").
  reflexivity.
Defined.

Lemma visits_add_up_witness :
  lookup "AAAAAAA" (visits "AAAAAAA" None [30; 31; 32] crowded_world)
  = Some (mkLink "AAAAAAA" "https://example.org/a" 6 10 (Some 32)).
Proof.
  apply (visits_add_up "AAAAAAA" None [30; 31; 32] crowded_world
           (mkLink "AAAAAAA" "https://example.org/a" 3 10 (Some 20))).
  reflexivity.
Defined.

Lemma visit_test_flag_witness :
  fst (resolveAndRecordVisit "AAAAAAA" (Some "1") 30 crowded_world)
  = mkResponse 200 (JsonClick "click updated" "https://example.org/a").
Proof.
  apply (visit_test_flag "AAAAAAA" (Some "1") 30 crowded_world
           (mkLink "AAAAAAA" "https://example.org/a" 3 10 (Some 20))).
  - reflexivity.
  - reflexivity.
Defined.

Lemma unique_codes_kept_witness :
  unique_codes (snd (delete "AAAAAAA" crowded_world)).
Proof.
  apply (unique_codes_kept cycling_env crowded_world). exact crowded_world_unique.
Defined.

Lemma strict_codes_kept_witness :
  strict_codes
    (snd (create cycling_env (Some "https://example.org/page") None 30 crowded_world)).
Proof.
  apply (strict_codes_kept cycling_env crowded_world).
  - exact cycling_env_in_unit.
  - exact crowded_world_strict.
Defined.

Lemma genCode_any_length_witness :
  snd (genCode cycling_env 5 crowded_world)
  = mkWorld (links crowded_world) (random_calls crowded_world + 5)
  /\ String.length (fst (genCode cycling_env 5 crowded_world)) = 5%nat
  /\ string_forall is_alnum (fst (genCode cycling_env 5 crowded_world)) = true
  /\ RegExp_test CODE_RE (Some (fst (genCode cycling_env 5 crowded_world)))
     = ((6 <=? 5)%nat && (5 <=? 8)%nat).
Proof.
  apply (genCode_any_length cycling_env 5 crowded_world). exact cycling_env_in_unit.
Defined.


Lemma base_url_without_trailing_slashes_witness :
  exists k,
    "https://sho.rt//"
    = resolvedBaseUrl_of (fun _ => "3000") (Some "https://sho.rt//") None ++ slashes k.
Proof.
  apply (base_url_without_trailing_slashes (fun _ => "3000") "https://sho.rt//" None).
  discriminate.
Defined.

Lemma page_code_at_server_witness :
  fst (create cycling_env (Some "https://example.org/page") (Some "Ab3_9") 30
         crowded_world)
  = InvalidCode.
Proof.
  apply (page_code_at_server cycling_env " Ab3_9 " "https://example.org/page" "Ab3_9"
           30 crowded_world).
  - split; [discriminate | reflexivity].
  - reflexivity.
  - reflexivity.
  - left. cbn. lia.
Defined.

Lemma createLink_posts_witness :
  "https://example.org/page" = AdminPage.trim "  https://example.org/page "
  /\ "https://example.org/page" <> "".
Proof.
  pose proof (createLink_posts cycling_env "  https://example.org/page " " launch7 "
                "https://example.org/page" (Some "launch7") 30 crowded_world eq_refl)
    as (H1 & H2 & _).
  split; [exact H1 | exact H2].
Defined.

Lemma page_controls_reach_server_witness :
  list_offset
    (snd (AdminPage.fetchPage_query AdminPage.page_limit
            (AdminPage.offset_after
               [AdminPage.Next; AdminPage.Next; AdminPage.Prev; AdminPage.Prev;
                AdminPage.Prev; AdminPage.Next] 0)))
  = Num 20.
Proof.
  apply (page_controls_reach_server
           [AdminPage.Next; AdminPage.Next; AdminPage.Prev; AdminPage.Prev;
            AdminPage.Prev; AdminPage.Next]).
  reflexivity.
Defined.
